(** * Contacts repository: a shallow embedding of [src/repository/contacts.py]

    The development follows the layout of the Python package:
    - [Calendar]   : the part of [datetime.date] the repository uses;
    - [Text]       : Python strings, truthiness and SQL [ILIKE] patterns;
    - [User], [Contact] : the mapped classes of [src/entity/models.py];
    - [Schema]     : the request bodies of [src/schema/contact.py];
    - [Db]         : the [AsyncSession] the repository talks to, as a state
                     and exception monad over the [contacts] table;
    - [Repository] : the seven functions of [src/repository/contacts.py];
    - [Routes]     : the reading handlers of [src/routes/contacts.py].

    Definitions come first, the properties follow. *)

From Stdlib Require Import ZArith List String Ascii Bool Lia.
Import ListNotations.

#[local] Open Scope string_scope.
#[local] Open Scope Z_scope.
#[local] Open Scope list_scope.

(* ===================================================================== *)
(** ** datetime.date                                                      *)
(* ===================================================================== *)

Module Calendar.

(** A [datetime.date]: proleptic Gregorian year, month and day. *)
Record date : Type := Date { year : Z; month : Z; day : Z }.

Definition MINYEAR : Z := 1.
Definition MAXYEAR : Z := 9999.

Definition is_leap (y : Z) : bool :=
  (y mod 4 =? 0) && (negb (y mod 100 =? 0) || (y mod 400 =? 0)).

Definition days_in_month (y m : Z) : Z :=
  if m =? 2 then (if is_leap y then 29 else 28)
  else if (m =? 4) || (m =? 6) || (m =? 9) || (m =? 11) then 30
  else 31.

(** The values the constructor [date(y, m, d)] accepts. *)
Definition valid (d : date) : bool :=
  (MINYEAR <=? year d) && (year d <=? MAXYEAR)
  && (1 <=? month d) && (month d <=? 12)
  && (1 <=? day d) && (day d <=? days_in_month (year d) (month d)).

(** Dates compare as the triples (year, month, day). *)
Definition ltb (a b : date) : bool :=
  (year a <? year b)
  || ((year a =? year b)
      && ((month a <? month b)
          || ((month a =? month b) && (day a <? day b)))).

Definition eqb (a b : date) : bool :=
  (year a =? year b) && (month a =? month b) && (day a =? day b).

(** [a >= b] *)
Definition geb (a b : date) : bool := negb (ltb a b).

(** [d + timedelta(days=1)]; [None] is Python's [OverflowError] past
    [date.max]. *)
Definition tomorrow (d : date) : option date :=
  if day d <? days_in_month (year d) (month d)
  then Some (Date (year d) (month d) (day d + 1))
  else if month d <? 12
  then Some (Date (year d) (month d + 1) 1)
  else if year d <? MAXYEAR
  then Some (Date (year d + 1) 1 1)
  else None.

(** [d + timedelta(days=n)] for a non-negative [n]. *)
Fixpoint add_days (d : date) (n : nat) : option date :=
  match n with
  | O => Some d
  | S k => match tomorrow d with
           | Some d' => add_days d' k
           | None => None
           end
  end.

End Calendar.

(* ===================================================================== *)
(** ** Strings: truthiness, case folding, LIKE patterns                   *)
(* ===================================================================== *)

Module Text.

(** Python's [if s:] for an optional string argument: [None] and the
    empty string are both falsy. *)
Definition truthy (o : option string) : bool :=
  match o with
  | Some (String _ _) => true
  | Some EmptyString => false
  | None => false
  end.

(** Case folding of the letters A to Z.  A character of the model is one
    byte, so text outside ASCII is left as it is: on such text [lower],
    and [like], [ilike] and [icontains] below, are not those of Python or
    of the database, and the properties that depend on it are stated for
    ASCII text ([ascii_only]) or for the case of ASCII letters. *)
Definition is_upper (c : ascii) : bool :=
  ((65 <=? nat_of_ascii c) && (nat_of_ascii c <=? 90))%nat.

Definition lower_char (c : ascii) : ascii :=
  if is_upper c then ascii_of_nat (nat_of_ascii c + 32) else c.

Fixpoint lower (s : string) : string :=
  match s with
  | EmptyString => EmptyString
  | String c s' => String (lower_char c) (lower s')
  end.

Definition percent : ascii := "%"%char.
Definition underscore : ascii := "_"%char.

(** SQL [s LIKE p]: [%] stands for any run of characters, [_] for any
    single character, every other character for itself. *)
Fixpoint like (p s : string) {struct p} : bool :=
  match p with
  | EmptyString =>
      match s with EmptyString => true | String _ _ => false end
  | String c p' =>
      if Ascii.eqb c percent then
        (fix any (t : string) : bool :=
           like p' t
           || match t with
              | EmptyString => false
              | String _ t' => any t'
              end) s
      else if Ascii.eqb c underscore then
        match s with
        | EmptyString => false
        | String _ s' => like p' s'
        end
      else
        match s with
        | EmptyString => false
        | String d s' => Ascii.eqb c d && like p' s'
        end
  end.

(** [column.ilike(p)]: LIKE on the case-folded operands. *)
Definition ilike (s p : string) : bool := like (lower p) (lower s).

(** The f-string ["%{needle}%"]. *)
Definition wrap (needle : string) : string :=
  String percent (needle ++ String percent EmptyString)%string.








End Text.

(* ===================================================================== *)
(** ** src/entity/models.py                                               *)
(* ===================================================================== *)

Inductive Role : Type := admin | moderator | user.

Module User.

(** A row of [users].  Timestamps are seconds on the server clock. *)
Record t : Type := Make {
  id : Z;
  username : string;
  email : string;
  password : string;
  avatar : option string;
  refresh_token : option string;
  created_at : Z;
  updated_at : Z;
  role : option Role;
  confirmed : option bool
}.

End User.

(** A value carried by [model_dump()]: the bodies hold strings and one
    date. *)
Inductive value : Type :=
| VStr (s : string)
| VDate (d : Calendar.date).

Module Contact.

(** A [Contact] object.  [id] is [None] until the object is flushed;
    [created_at], [updated_at] and [user_id] are nullable columns. *)
Record t : Type := Make {
  id : option Z;
  name : string;
  surname : string;
  email : string;
  phone : string;
  birthday : Calendar.date;
  created_at : option Z;
  updated_at : option Z;
  user_id : option Z
}.

Definition set_id (v : option Z) (c : t) : t :=
  Make v (name c) (surname c) (email c) (phone c) (birthday c)
       (created_at c) (updated_at c) (user_id c).
Definition set_name (v : string) (c : t) : t :=
  Make (id c) v (surname c) (email c) (phone c) (birthday c)
       (created_at c) (updated_at c) (user_id c).
Definition set_surname (v : string) (c : t) : t :=
  Make (id c) (name c) v (email c) (phone c) (birthday c)
       (created_at c) (updated_at c) (user_id c).
Definition set_email (v : string) (c : t) : t :=
  Make (id c) (name c) (surname c) v (phone c) (birthday c)
       (created_at c) (updated_at c) (user_id c).
Definition set_phone (v : string) (c : t) : t :=
  Make (id c) (name c) (surname c) (email c) v (birthday c)
       (created_at c) (updated_at c) (user_id c).
Definition set_birthday (v : Calendar.date) (c : t) : t :=
  Make (id c) (name c) (surname c) (email c) (phone c) v
       (created_at c) (updated_at c) (user_id c).
Definition set_created_at (v : option Z) (c : t) : t :=
  Make (id c) (name c) (surname c) (email c) (phone c) (birthday c)
       v (updated_at c) (user_id c).
Definition set_updated_at (v : option Z) (c : t) : t :=
  Make (id c) (name c) (surname c) (email c) (phone c) (birthday c)
       (created_at c) v (user_id c).

(** [setattr(contact, key, value)] on the mapped attributes a request
    body can name; any other key leaves the columns alone. *)
Definition setattr (c : t) (key : string) (v : value) : t :=
  match v with
  | VStr x =>
      if (key =? "name")%string then set_name x c
      else if (key =? "surname")%string then set_surname x c
      else if (key =? "email")%string then set_email x c
      else if (key =? "phone")%string then set_phone x c
      else c
  | VDate d =>
      if (key =? "birthday")%string then set_birthday d c else c
  end.

Definition opt_eqb (a b : option Z) : bool :=
  match a, b with
  | Some x, Some y => x =? y
  | None, None => true
  | _, _ => false
  end.

(** Column-wise equality of two objects. *)
Definition eqb (a b : t) : bool :=
  opt_eqb (id a) (id b)
  && (name a =? name b)%string && (surname a =? surname b)%string
  && (email a =? email b)%string && (phone a =? phone b)%string
  && Calendar.eqb (birthday a) (birthday b)
  && opt_eqb (created_at a) (created_at b)
  && opt_eqb (updated_at a) (updated_at b)
  && opt_eqb (user_id a) (user_id b).

(** [Contact.id == pk] *)
Definition has_id (pk : Z) (c : t) : bool := opt_eqb (id c) (Some pk).

(** [filter_by(user=u)]: the relationship compares the foreign key
    [user_id] with the user's primary key; a NULL never matches. *)
Definition owned_by (u : User.t) (c : t) : bool :=
  opt_eqb (user_id c) (Some (User.id u)).

End Contact.

(* ===================================================================== *)
(** ** src/schema/contact.py                                              *)
(* ===================================================================== *)

Module Schema.

(** [ContactSchema] and [ContactUpdate] carry the same five fields. *)
Record ContactSchema : Type := MakeSchema {
  name : string;
  surname : string;
  email : string;
  phone : string;
  birthday : Calendar.date
}.

Definition ContactUpdate : Type := ContactSchema.

(** [body.model_dump().items()], in declaration order. *)
Definition model_dump (b : ContactSchema) : list (string * value) :=
  [ ("name", VStr (name b));
    ("surname", VStr (surname b));
    ("email", VStr (email b));
    ("phone", VStr (phone b));
    ("birthday", VDate (birthday b)) ].

End Schema.

(** The constructor call of [create_contact], the dumped body as keyword
    arguments plus [user=user]: a transient object, no primary key and no
    timestamps yet.  The blank fields are all overwritten by the keywords
    of a dumped body. *)
Definition Contact_init (kwargs : list (string * value)) (u : User.t)
  : Contact.t :=
  fold_left (fun c kv => Contact.setattr c (fst kv) (snd kv)) kwargs
    (Contact.Make None "" "" "" "" (Calendar.Date 1 1 1) None None
                  (Some (User.id u))).

(* ===================================================================== *)
(** ** The database session                                               *)
(* ===================================================================== *)

Module Db.

(** The exceptions the repository raises or lets through. *)
Inductive exn : Type :=
| HTTPException (status_code : Z) (detail : string)
| SQLAlchemyError (message : string)
| OverflowError (message : string).

(** [str(e)] *)
Definition str (e : exn) : string :=
  match e with
  | HTTPException _ d => d
  | SQLAlchemyError m => m
  | OverflowError m => m
  end.

(** The session methods the repository awaits, as they are recorded in
    the session's trace. *)
Inductive call : Type :=
| Execute | Add | Delete | Commit | Refresh | Rollback | Close.

(** A unit-of-work entry waiting for the next flush. *)
Inductive change : Type :=
| Insert (c : Contact.t)
| Update (c : Contact.t)
| Remove (c : Contact.t).

(** An [AsyncSession] together with the database behind it.
    - [table]: the committed rows of [contacts], in scan order;
    - [sequence]: the next primary key the server hands out;
    - [now]: the server clock read by [func.now()];
    - [pending]: the unit of work not yet flushed;
    - [identity]: the primary key each object added through this session
      received when it was flushed;
    - [closed]: the session holds no transaction: so after [close] and
      after a successful [commit], until the next statement begins one;
    - [calls]: the trace of session methods, oldest first. *)
Record Session : Type := MakeSession {
  table : list Contact.t;
  sequence : Z;
  now : Z;
  pending : list change;
  identity : list (Contact.t * Z);
  closed : bool;
  calls : list call
}.

(** A computation against the session: it ends with a value or an
    exception, and the session keeps whatever was done to it either
    way. *)
Definition M (A : Type) : Type := Session -> (exn + A) * Session.

Definition ret {A} (a : A) : M A := fun s => (inr a, s).

Definition bind {A B} (m : M A) (k : A -> M B) : M B :=
  fun s =>
    match m s with
    | (inr a, s') => k a s'
    | (inl e, s') => (inl e, s')
    end.

Definition raise {A} (e : exn) : M A := fun s => (inl e, s).

(** [try: body / except ...: handler]; the handler re-raises what it
    does not catch. *)
Definition try_except {A} (body : M A) (handler : exn -> M A) : M A :=
  fun s =>
    match body s with
    | (inl e, s') => handler e s'
    | (inr a, s') => (inr a, s')
    end.

(** [try: body / finally: final] *)
Definition try_finally {A} (body : M A) (final : M unit) : M A :=
  fun s =>
    match body s with
    | (r, s') =>
        match final s' with
        | (inl e, s'') => (inl e, s'')
        | (inr _, s'') => (r, s'')
        end
    end.

(** A pure step that may raise. *)
Definition lift {A} (r : exn + A) : M A := fun s => (r, s).

(** The session after one more method call; [busy] tells whether the
    call leaves a transaction open. *)
Definition record_call (k : call) (busy : bool) (s : Session) : Session :=
  MakeSession (table s) (sequence s) (now s) (pending s) (identity s)
              (negb busy) (calls s ++ [k]).

Definition stage (ch : change) (s : Session) : Session :=
  MakeSession (table s) (sequence s) (now s) (pending s ++ [ch])
              (identity s) (closed s) (calls s).

Definition drop_pending (s : Session) : Session :=
  MakeSession (table s) (sequence s) (now s) [] (identity s)
              (closed s) (calls s).

(** *** Statements *)

(** A [select(Contact)] statement under construction.  The builder
    methods are generative: the clauses accumulate in any order and the
    statement is read as WHERE, then OFFSET, then LIMIT.  [keys] are the
    primary-key values the statement binds as parameters. *)
Record Select : Type := MakeSelect {
  whereclause : list (Contact.t -> bool);
  offset_clause : option nat;
  limit_clause : option nat;
  keys : list Z
}.

Definition select_Contact : Select := MakeSelect [] None None [].

Definition filter (st : Select) (p : Contact.t -> bool) : Select :=
  MakeSelect (whereclause st ++ [p]) (offset_clause st) (limit_clause st)
             (keys st).

(** [filter_by(id=pk)] *)
Definition filter_by_id (st : Select) (pk : Z) : Select :=
  MakeSelect (whereclause st ++ [Contact.has_id pk]) (offset_clause st)
             (limit_clause st) (keys st ++ [pk]).

Definition offset (st : Select) (n : nat) : Select :=
  MakeSelect (whereclause st) (Some n) (limit_clause st) (keys st).

Definition limit (st : Select) (n : nat) : Select :=
  MakeSelect (whereclause st) (offset_clause st) (Some n) (keys st).

Definition satisfies (st : Select) (c : Contact.t) : bool :=
  forallb (fun p => p c) (whereclause st).

Definition run (st : Select) (rows : list Contact.t) : list Contact.t :=
  let matching := List.filter (satisfies st) rows in
  let skipped :=
    match offset_clause st with
    | Some n => skipn n matching
    | None => matching
    end in
  match limit_clause st with
  | Some n => firstn n skipped
  | None => skipped
  end.

(** The integers the driver binds as statement parameters: the signed
    64-bit range. *)
Definition INT_MIN : Z := - 2 ^ 63.
Definition INT_MAX : Z := 2 ^ 63 - 1.

Definition in_range (v : Z) : bool := (INT_MIN <=? v) && (v <=? INT_MAX).

Definition integer_out_of_range : string :=
  "Python int too large to convert to a database integer".

(** A key parameter the driver binds: a key within its range.  A key
    below the sequence is admitted too: the keys the database has handed
    out are integers of its own, and the sequence of the model has no
    upper end, where the real one stops short of [INT_MAX].  For a key
    that was never handed out the model is exact within [in_range] only,
    and the properties of requested ids are stated there. *)
Definition binds_key (s : Session) (pk : Z) : bool :=
  in_range pk || (pk <? sequence s).

Definition binds_count (n : option nat) : bool :=
  match n with
  | Some n => in_range (Z.of_nat n)
  | None => true
  end.

(** The parameters of a statement all fit the driver. *)
Definition binds (s : Session) (st : Select) : bool :=
  forallb (binds_key s) (keys st)
  && binds_count (offset_clause st)
  && binds_count (limit_clause st).

(** [await db.execute(statement)], with the rows already fetched.  The
    driver raises [OverflowError] while binding a parameter outside its
    range, before anything is read; the transaction has begun by then.
    Every repository function queries before it stages anything, so there
    is no autoflush to account for. *)
Definition execute (st : Select) : M (list Contact.t) :=
  fun s =>
    if binds s st
    then (inr (run st (table s)), record_call Execute true s)
    else (inl (OverflowError integer_out_of_range),
          record_call Execute true s).

Definition multiple_rows : string :=
  "Multiple rows were found when one or none was required".

(** [result.scalar_one_or_none()] *)
Definition scalar_one_or_none (rows : list Contact.t)
  : exn + option Contact.t :=
  match rows with
  | [] => inr None
  | [c] => inr (Some c)
  | _ :: _ :: _ => inl (SQLAlchemyError multiple_rows)
  end.

(** *** Unit of work *)

Definition unique_violation : string :=
  "IntegrityError: duplicate key value violates unique constraint on contacts.email".
Definition not_persistent : string :=
  "InvalidRequestError: instance is not persistent within this Session".
Definition stale_row : string :=
  "StaleDataError: statement on table 'contacts' expected to match 1 row; 0 were matched".
Definition cannot_refresh : string :=
  "InvalidRequestError: could not refresh instance".

(** What a flush works on: the table, the key sequence and the identity
    map. *)
Definition store : Type := (list Contact.t * Z * list (Contact.t * Z))%type.

(** The column default [func.now()]: used when the attribute is unset. *)
Definition default_now (clock : Z) (v : option Z) : option Z :=
  match v with
  | Some x => Some x
  | None => Some clock
  end.

(** INSERT: [email] is unique; the server assigns the key, and the
    defaults of [created_at] and [updated_at] fill in the timestamps. *)
Definition insert_row (clock : Z) (st : store) (c : Contact.t)
  : exn + store :=
  let '(rows, seq, idm) := st in
  if existsb (fun r => (Contact.email r =? Contact.email c)%string) rows
  then inl (SQLAlchemyError unique_violation)
  else
    let row :=
      Contact.set_updated_at (default_now clock (Contact.updated_at c))
        (Contact.set_created_at (default_now clock (Contact.created_at c))
           (Contact.set_id (Some seq) c)) in
    inr (rows ++ [row], seq + 1, (c, seq) :: idm).

(** UPDATE by primary key.  An object whose columns equal the stored row
    has no net change and emits nothing; otherwise [email] must stay
    unique and [onupdate=func.now()] stamps [updated_at]. *)
Definition update_row (clock : Z) (st : store) (c : Contact.t)
  : exn + store :=
  let '(rows, seq, idm) := st in
  match Contact.id c with
  | None => inl (SQLAlchemyError not_persistent)
  | Some pk =>
      match find (Contact.has_id pk) rows with
      | None => inl (SQLAlchemyError stale_row)
      | Some old =>
          if Contact.eqb old c then inr st
          else if existsb
                    (fun r => negb (Contact.has_id pk r)
                              && (Contact.email r =? Contact.email c)%string)
                    rows
          then inl (SQLAlchemyError unique_violation)
          else
            let row := Contact.set_updated_at (Some clock) c in
            inr (map (fun r => if Contact.has_id pk r then row else r) rows,
                 seq, idm)
      end
  end.

(** DELETE by primary key. *)
Definition delete_row (st : store) (c : Contact.t) : exn + store :=
  let '(rows, seq, idm) := st in
  match Contact.id c with
  | None => inl (SQLAlchemyError not_persistent)
  | Some pk =>
      inr (List.filter (fun r => negb (Contact.has_id pk r)) rows, seq, idm)
  end.

Definition apply_change (clock : Z) (st : store) (ch : change)
  : exn + store :=
  match ch with
  | Insert c => insert_row clock st c
  | Update c => update_row clock st c
  | Remove c => delete_row st c
  end.

(** The flush: the pending changes in order, all or nothing. *)
Fixpoint flush (clock : Z) (st : store) (chs : list change) : exn + store :=
  match chs with
  | [] => inr st
  | ch :: rest =>
      match apply_change clock st ch with
      | inl e => inl e
      | inr st' => flush clock st' rest
      end
  end.

(** [db.add(obj)] *)
Definition add (c : Contact.t) : M unit :=
  fun s => (inr tt, stage (Insert c) (record_call Add true s)).

(** [await db.delete(obj)] *)
Definition delete (c : Contact.t) : M unit :=
  fun s => (inr tt, stage (Remove c) (record_call Delete true s)).

(** Attribute assignment on a loaded object.  The session tracks the
    object: its latest state replaces the object's entry in the unit of
    work. *)
Definition same_object (c : Contact.t) (ch : change) : bool :=
  match ch with
  | Update d => Contact.opt_eqb (Contact.id d) (Contact.id c)
  | _ => false
  end.

Definition setattr (c : Contact.t) (key : string) (v : value)
  : M Contact.t :=
  fun s =>
    let c' := Contact.setattr c key v in
    (inr c',
     MakeSession (table s) (sequence s) (now s)
       (List.filter (fun ch => negb (same_object c ch)) (pending s)
        ++ [Update c'])
       (identity s) (closed s) (calls s)).

(** [await db.commit()]: flush and make the result durable.  After a
    successful commit the session holds no transaction.  A failing flush
    raises and leaves the table as it was: the transaction is rolled back
    and stays with the session, inactive, until [rollback] or [close]; the
    objects of the unit of work are expired, so nothing stays staged.
    Until then the real session refuses every further statement; that
    refusal is not modelled, and no property below runs a statement on a
    session whose commit failed and was not rolled back or closed. *)
Definition commit : M unit :=
  fun s =>
    match flush (now s) (table s, sequence s, identity s) (pending s) with
    | inl e => (inl e, drop_pending (record_call Commit true s))
    | inr (rows, seq, idm) =>
        (inr tt,
         MakeSession rows seq (now s) [] idm true (calls s ++ [Commit]))
    end.

(** [await db.rollback()]: the unit of work is discarded. *)
Definition rollback : M unit :=
  fun s => (inr tt, drop_pending (record_call Rollback true s)).

(** [await db.close()] *)
Definition close : M unit :=
  fun s => (inr tt, drop_pending (record_call Close false s)).

(** The primary key of an object: its own, or the one it received at
    flush when it was added through this session. *)
Fixpoint key_of (idm : list (Contact.t * Z)) (c : Contact.t) : option Z :=
  match Contact.id c with
  | Some pk => Some pk
  | None =>
      match idm with
      | [] => None
      | (o, pk) :: rest =>
          if Contact.eqb o c then Some pk else key_of rest c
      end
  end.

(** [await db.refresh(obj)]: the object as re-read from its row. *)
Definition refresh (c : Contact.t) : M Contact.t :=
  fun s =>
    let s1 := record_call Refresh true s in
    match key_of (identity s) c with
    | None => (inl (SQLAlchemyError not_persistent), s1)
    | Some pk =>
        match find (Contact.has_id pk) (table s) with
        | Some row => (inr row, s1)
        | None => (inl (SQLAlchemyError cannot_refresh), s1)
        end
    end.

Module Notations.
Notation "x <- c1 ;; c2" := (bind c1 (fun x => c2))
  (at level 61, c1 at next level, right associativity).
Notation "c1 ;; c2" := (bind c1 (fun _ => c2))
  (at level 61, right associativity).
End Notations.

End Db.

(* ===================================================================== *)
(** ** src/repository/contacts.py                                         *)
(* ===================================================================== *)

Module Repository.

Import Db.Notations.

(** [Contact.<column>.ilike(f"%{arg}%")] added when [arg] is truthy. *)
Definition ilike_if (arg : option string) (column : Contact.t -> string)
                    (statement : Db.Select) : Db.Select :=
  match arg with
  | Some needle =>
      if Text.truthy arg
      then Db.filter statement
             (fun c => Text.ilike (column c) (Text.wrap needle))
      else statement
  | None => statement
  end.

(** [limit] and [offset] are naturals: the route declares them with
    [ge=10] and [ge=0]. *)
Definition get_contacts (limit offset : nat)
           (name surname email : option string) (user : User.t)
  : Db.M (list Contact.t) :=
  let statement :=
    Db.limit
      (Db.offset (Db.filter Db.select_Contact (Contact.owned_by user))
                 offset)
      limit in
  let statement := ilike_if name Contact.name statement in
  let statement := ilike_if surname Contact.surname statement in
  let statement := ilike_if email Contact.email statement in
  contacts <- Db.execute statement ;;
  Db.close ;;
  Db.ret contacts.

Definition get_all_contacts (limit offset : nat) : Db.M (list Contact.t) :=
  let statement := Db.limit (Db.offset Db.select_Contact offset) limit in
  contacts <- Db.execute statement ;;
  Db.close ;;
  Db.ret contacts.

(** [select(Contact).filter_by(id=contact_id, user=user)] *)
Definition by_id_and_user (contact_id : Z) (user : User.t) : Db.Select :=
  Db.filter (Db.filter_by_id Db.select_Contact contact_id)
            (Contact.owned_by user).

Definition get_contact (contact_id : Z) (user : User.t)
  : Db.M (option Contact.t) :=
  let statement := by_id_and_user contact_id user in
  contact <- Db.execute statement ;;
  Db.close ;;
  Db.lift (Db.scalar_one_or_none contact).

(** The [except SQLAlchemyError as e] clause of [create_contact]. *)
Definition on_database_error (e : Db.exn) : Db.M Contact.t :=
  match e with
  | Db.SQLAlchemyError _ =>
      Db.rollback ;;
      Db.raise (Db.HTTPException 500 ("Database error: " ++ Db.str e)%string)
  | _ => Db.raise e
  end.

(** [today] is what [date.today()] answers during the call. *)
Definition create_contact (today : Calendar.date)
           (body : Schema.ContactSchema) (user : User.t)
  : Db.M Contact.t :=
  if Calendar.geb (Schema.birthday body) today
  then Db.raise (Db.HTTPException 400 "Birthday must be in the past")
  else
    Db.try_finally
      (Db.try_except
         (let contact := Contact_init (Schema.model_dump body) user in
          Db.add contact ;;
          Db.commit ;;
          contact <- Db.refresh contact ;;
          Db.ret contact)
         on_database_error)
      Db.close.

(** [for key, value in items: setattr(obj, key, value)] *)
Fixpoint setattr_all (items : list (string * value)) (obj : Contact.t)
  : Db.M Contact.t :=
  match items with
  | [] => Db.ret obj
  | (key, value) :: rest =>
      obj <- Db.setattr obj key value ;;
      setattr_all rest obj
  end.

Definition update_contact (contact_id : Z)
           (contact_update : Schema.ContactUpdate) (user : User.t)
  : Db.M Contact.t :=
  let statement := by_id_and_user contact_id user in
  existing_contact <- Db.execute statement ;;
  existing_contact <- Db.lift (Db.scalar_one_or_none existing_contact) ;;
  match existing_contact with
  | None => Db.raise (Db.HTTPException 404 "Contact not found")
  | Some existing_contact =>
      existing_contact <-
        setattr_all (Schema.model_dump contact_update) existing_contact ;;
      Db.commit ;;
      existing_contact <- Db.refresh existing_contact ;;
      Db.close ;;
      Db.ret existing_contact
  end.

Definition delete_contact (contact_id : Z) (user : User.t)
  : Db.M Contact.t :=
  let statement := by_id_and_user contact_id user in
  contact <- Db.execute statement ;;
  contact <- Db.lift (Db.scalar_one_or_none contact) ;;
  match contact with
  | None => Db.raise (Db.HTTPException 404 "Contact not found")
  | Some contact =>
      Db.delete contact ;;
      Db.commit ;;
      Db.ret contact
  end.

(** [extract('month', Contact.birthday)] and [extract('day', ...)] *)
Definition extract_month (c : Contact.t) : Z :=
  Calendar.month (Contact.birthday c).
Definition extract_day (c : Contact.t) : Z :=
  Calendar.day (Contact.birthday c).

(** The WHERE clause of [get_upcoming_birthdays], connective by
    connective. *)
Definition birthday_clause (today next_week : Calendar.date)
           (c : Contact.t) : bool :=
  ((extract_month c =? Calendar.month today)
   && (extract_day c >=? Calendar.day today)
   && (extract_month c =? Calendar.month next_week)
   && (extract_day c <=? Calendar.day next_week))
  || (negb (Calendar.month today =? Calendar.month next_week)
      && (((extract_month c =? Calendar.month today)
           && (extract_day c >=? Calendar.day today))
          || ((extract_month c =? Calendar.month next_week)
              && (extract_day c <=? Calendar.day next_week)))).

Definition date_overflow : string := "date value out of range".

(** [today] is what [date.today()] answers during the call; [user] is
    accepted and not used by the query. *)
Definition get_upcoming_birthdays (today : Calendar.date) (user : User.t)
  : Db.M (list Contact.t) :=
  match Calendar.add_days today 7 with
  | None => Db.raise (Db.OverflowError date_overflow)
  | Some next_week =>
      let query :=
        Db.filter Db.select_Contact (birthday_clause today next_week) in
      result <- Db.execute query ;;
      Db.close ;;
      Db.ret result
  end.

End Repository.

(* ===================================================================== *)
(** ** src/routes/contacts.py                                             *)
(* ===================================================================== *)

Module Routes.

Import Db.Notations.

(** An integer parameter declared [Query(default, ge=lo, le=hi)]: the
    default stands in for an absent parameter, and a value out of bounds
    is [None], the request being refused (HTTP 422) before the handler
    body runs. *)
Definition Query (default ge : Z) (le : option Z) (raw : option Z)
  : option Z :=
  match raw with
  | None => Some default
  | Some v =>
      if (ge <=? v)
         && match le with
            | Some hi => v <=? hi
            | None => true
            end
      then Some v
      else None
  end.

(** [GET /contacts/]: [limit: Query(10, ge=10, le=100)],
    [offset: Query(0, ge=0)]; the three filters default to [None].  [db]
    and [user] are the resolved dependencies. *)
Definition get_contacts (limit offset : option Z)
           (name surname email : option string) (user : User.t)
  : option (Db.M (list Contact.t)) :=
  match Query 10 10 (Some 100) limit, Query 0 0 None offset with
  | Some limit, Some offset =>
      Some
        (contacts <- Repository.get_contacts (Z.to_nat limit)
                       (Z.to_nat offset) name surname email user ;;
         match contacts with
         | _ :: _ => Db.ret contacts
         | [] => Db.raise (Db.HTTPException 404 "Contacts not found")
         end)
  | _, _ => None
  end.

(** [GET /contacts/all]; the role check is a dependency that has passed
    by the time the body runs. *)
Definition get_all_contacts (limit offset : option Z)
  : option (Db.M (list Contact.t)) :=
  match Query 10 10 (Some 100) limit, Query 0 0 None offset with
  | Some limit, Some offset =>
      Some
        (contacts <- Repository.get_all_contacts (Z.to_nat limit)
                       (Z.to_nat offset) ;;
         match contacts with
         | _ :: _ => Db.ret contacts
         | [] => Db.raise (Db.HTTPException 404 "Contacts not found")
         end)
  | _, _ => None
  end.

(** [GET /contacts/{contacts_id}] *)
Definition get_contact (contacts_id : Z) (user : User.t) : Db.M Contact.t :=
  contact <- Repository.get_contact contacts_id user ;;
  match contact with
  | Some contact => Db.ret contact
  | None => Db.raise (Db.HTTPException 404 "Contact not found")
  end.

(** [GET /contacts/birthday/] *)
Definition get_upcoming_birthdays (today : Calendar.date) (user : User.t)
  : Db.M (list Contact.t) :=
  contacts <- Repository.get_upcoming_birthdays today user ;;
  match contacts with
  | _ :: _ => Db.ret contacts
  | [] => Db.raise (Db.HTTPException 404 "Contacts not found")
  end.

End Routes.

(* ===================================================================== *)
(** ** The specification's vocabulary                                     *)
(* ===================================================================== *)

Module Spec.

(** The month-and-day rule of the upcoming-birthdays window, in the
    specification's words: Case A when the window stays inside one
    month, Case B when it crosses into the next. *)
Definition in_window (today horizon b : Calendar.date) : Prop :=
  (Calendar.month today = Calendar.month horizon
   /\ Calendar.month b = Calendar.month today
   /\ Calendar.day today <= Calendar.day b <= Calendar.day horizon)
  \/ (Calendar.month today <> Calendar.month horizon
      /\ ((Calendar.month b = Calendar.month today
           /\ Calendar.day b >= Calendar.day today)
          \/ (Calendar.month b = Calendar.month horizon
              /\ Calendar.day b <= Calendar.day horizon))).






(** A stored contact after a full replace by [b]: the five body fields
    come from [b]; key, owner and timestamps stay. *)
Definition overwritten (old : Contact.t) (b : Schema.ContactSchema)
  : Contact.t :=
  Contact.Make (Contact.id old) (Schema.name b) (Schema.surname b)
               (Schema.email b) (Schema.phone b) (Schema.birthday b)
               (Contact.created_at old) (Contact.updated_at old)
               (Contact.user_id old).

(** The body of the [try] statement of [create_contact]: what the
    persistence layer is asked to do for a new contact. *)
Definition persist (contact : Contact.t) : Db.M Contact.t :=
  Db.bind (Db.add contact)
    (fun _ =>
       Db.bind Db.commit
         (fun _ =>
            Db.bind (Db.refresh contact)
              (fun contact => Db.ret contact))).

(** The five body fields as stored on a contact. *)
Definition carries (c : Contact.t) (b : Schema.ContactSchema) : Prop :=
  Contact.name c = Schema.name b
  /\ Contact.surname c = Schema.surname b
  /\ Contact.email c = Schema.email b
  /\ Contact.phone c = Schema.phone b
  /\ Contact.birthday c = Schema.birthday b.

End Spec.

(* ===================================================================== *)
(** ** Invariants of a request-scoped session                             *)
(* ===================================================================== *)

Module Inv.

(** Primary keys are set and pairwise distinct. *)
Fixpoint distinct_ids (rows : list Contact.t) : bool :=
  match rows with
  | [] => true
  | c :: rest =>
      match Contact.id c with
      | None => false
      | Some pk => negb (existsb (Contact.has_id pk) rest)
                   && distinct_ids rest
      end
  end.

(** The unique constraint on [contacts.email]. *)
Fixpoint distinct_emails (rows : list Contact.t) : bool :=
  match rows with
  | [] => true
  | c :: rest =>
      negb (existsb (fun r => (Contact.email r =? Contact.email c)%string)
                    rest)
      && distinct_emails rest
  end.

(** Every key in use was handed out by the sequence. *)
Definition below (seq : Z) (rows : list Contact.t) : bool :=
  forallb (fun c => match Contact.id c with
                    | Some pk => pk <? seq
                    | None => false
                    end) rows.

(** Nothing is staged: the state of a session handed to an operation. *)
Definition idle (s : Db.Session) : bool :=
  match Db.pending s with
  | [] => true
  | _ :: _ => false
  end.

Definition well_formed (s : Db.Session) : bool :=
  idle s
  && distinct_ids (Db.table s)
  && distinct_emails (Db.table s)
  && below (Db.sequence s) (Db.table s).

(** No stored contact other than [pk] uses [addr]. *)
Definition email_free_for (pk : option Z) (addr : string)
           (rows : list Contact.t) : bool :=
  negb (existsb (fun r => negb (Contact.opt_eqb (Contact.id r) pk)
                          && (Contact.email r =? addr)%string) rows).

(** No stored contact uses [addr]. *)
Definition email_free (addr : string) (rows : list Contact.t) : bool :=
  negb (existsb (fun r => (Contact.email r =? addr)%string) rows).

End Inv.

(** The statement [get_contacts] has built by the time it executes it. *)
Definition list_statement (limit offset : nat)
           (name surname email : option string) (owner : User.t)
  : Db.Select :=
  Repository.ilike_if email Contact.email
    (Repository.ilike_if surname Contact.surname
       (Repository.ilike_if name Contact.name
          (Db.limit
             (Db.offset
                (Db.filter Db.select_Contact (Contact.owned_by owner))
                offset)
             limit))).

(* ===================================================================== *)
(** ** Sample data                                                        *)
(* ===================================================================== *)

Module Sample.

Definition alice : User.t :=
  User.Make 1 "alice" "alice@example.com" "hash-a" None None 0 0
            (Some user) (Some true).
Definition bob : User.t :=
  User.Make 2 "bob" "bob@example.com" "hash-b" None None 0 0
            (Some user) (Some true).

Definition contact (pk : Z) (name surname email : string)
           (y m d : Z) (owner : option Z) : Contact.t :=
  Contact.Make (Some pk) name surname email "555-0100"
               (Calendar.Date y m d) (Some 100) (Some 100) owner.

Definition jan30 := contact 1 "Ann" "Lee" "ann@example.com" 1990 1 30 (Some 1).
Definition feb10 := contact 2 "Bob" "Ray" "bob.ray@example.com" 1985 2 10 (Some 1).
Definition jan20 := contact 3 "Cy" "Poe" "cy@example.com" 1970 1 20 (Some 1).
Definition jun05 := contact 4 "Di" "Fox" "di@example.com" 2001 6 5 (Some 1).
Definition jun09 := contact 5 "Ed" "Kim" "ed@example.com" 1999 6 9 (Some 1).
Definition theirs := contact 6 "Flo" "Orr" "flo@example.com" 1992 1 29 (Some 2).
Definition nobodys := contact 7 "Gus" "Ode" "gus@example.com" 1993 2 1 None.

Definition session (rows : list Contact.t) : Db.Session :=
  Db.MakeSession rows 8 500 [] [] false [].

Definition book : Db.Session :=
  session [jan30; feb10; jan20; jun05; jun09; theirs; nobodys].

Definition jan28 : Calendar.date := Calendar.Date 2024 1 28.
Definition feb04 : Calendar.date := Calendar.Date 2024 2 4.
Definition jun01 : Calendar.date := Calendar.Date 2024 6 1.
Definition jun08 : Calendar.date := Calendar.Date 2024 6 8.

Definition hal : Schema.ContactSchema :=
  Schema.MakeSchema "Hal" "Ito" "hal@example.com" "555-0199"
                    (Calendar.Date 1988 3 14).

(** A body whose address is already in [book]. *)
Definition ann_again : Schema.ContactSchema :=
  Schema.MakeSchema "Anne" "Lea" "ann@example.com" "555-0111"
                    (Calendar.Date 1991 7 2).

(** The fields Ann's contact already has. *)
Definition ann_same : Schema.ContactUpdate :=
  Schema.MakeSchema "Ann" "Lee" "ann@example.com" "555-0100"
                    (Calendar.Date 1990 1 30).

(** Hal's address again, in a body dated on the day of the call. *)
Definition hal_today : Schema.ContactSchema :=
  Schema.MakeSchema "Hal" "Ito" "hal@example.com" "555-0199"
                    (Calendar.Date 2024 6 1).

(** A body dated on the day of the call. *)
Definition born_today : Schema.ContactSchema :=
  Schema.MakeSchema "Ivy" "Ng" "ivy@example.com" "555-0122"
                    (Calendar.Date 2024 6 1).

End Sample.

(* ===================================================================== *)
(** ** Expected rows and further sample data                              *)
(* ===================================================================== *)

Module Expect.

(** The row [create_contact] stores for [body] on session [s]: the next
    key of the sequence, the server clock as both timestamps. *)
Definition created (s : Db.Session) (body : Schema.ContactSchema)
           (owner : User.t) : Contact.t :=
  Contact.Make (Some (Db.sequence s)) (Schema.name body)
               (Schema.surname body) (Schema.email body) (Schema.phone body)
               (Schema.birthday body) (Some (Db.now s)) (Some (Db.now s))
               (Some (User.id owner)).

(** The row [update_contact] leaves in place of [old]: [old] itself when
    the update changes nothing, else the overwritten contact stamped with
    the server clock. *)
Definition updated (s : Db.Session) (old : Contact.t)
           (data : Schema.ContactUpdate) : Contact.t :=
  if Contact.eqb old (Spec.overwritten old data) then old
  else Contact.set_updated_at (Some (Db.now s)) (Spec.overwritten old data).

End Expect.

Module Scenario.

Definition feb25 : Calendar.date := Calendar.Date 2023 2 25.
Definition mar04 : Calendar.date := Calendar.Date 2023 3 4.
Definition dec28 : Calendar.date := Calendar.Date 9999 12 28.

(** A contact born on a leap day. *)
Definition leapling : Contact.t :=
  Sample.contact 8 "Lea" "Pym" "lea@example.com" 2000 2 29 (Some 1).

End Scenario.

(* ===================================================================== *)
(** * Properties                                                          *)
(* ===================================================================== *)

(** ** LIKE patterns against substring search *)

Section Patterns.

Import Text.








Lemma lower_append (a b : string) :
  lower (a ++ b)%string = (lower a ++ lower b)%string.
Proof. induction a as [|c a IH]; simpl; [|rewrite IH]; reflexivity. Qed.

Lemma lower_wrap (p : string) : lower (wrap p) = wrap (lower p).
Proof. unfold wrap. simpl. rewrite lower_append. reflexivity. Qed.



End Patterns.

(** ** Statements *)

Section Statements.

Lemma satisfies_filter (st : Db.Select) (p : Contact.t -> bool)
      (c : Contact.t) :
  Db.satisfies (Db.filter st p) c = Db.satisfies st c && p c.
Proof.
  unfold Db.satisfies, Db.filter. simpl.
  rewrite forallb_app. simpl. rewrite andb_true_r. reflexivity.
Qed.

Lemma ilike_if_window (arg : option string) (col : Contact.t -> string)
      (st : Db.Select) :
  Db.offset_clause (Repository.ilike_if arg col st) = Db.offset_clause st
  /\ Db.limit_clause (Repository.ilike_if arg col st) = Db.limit_clause st.
Proof. destruct arg as [[|a r]|]; split; reflexivity. Qed.

(** A filter only ever removes rows. *)
Lemma ilike_if_narrows (arg : option string) (col : Contact.t -> string)
      (st : Db.Select) (c : Contact.t) :
  Db.satisfies (Repository.ilike_if arg col st) c = true ->
  Db.satisfies st c = true.
Proof.
  destruct arg as [[|a r]|]; simpl; trivial.
  rewrite satisfies_filter. intros H.
  apply andb_prop in H. tauto.
Qed.


Lemma ilike_if_keys (arg : option string) (col : Contact.t -> string)
      (st : Db.Select) :
  Db.keys (Repository.ilike_if arg col st) = Db.keys st.
Proof. destruct arg as [[|a r]|]; reflexivity. Qed.

(** A listing binds two parameters, its offset and its limit. *)
Lemma list_statement_binds limit offset name surname email owner s :
  Db.binds s (list_statement limit offset name surname email owner)
  = Db.in_range (Z.of_nat offset) && Db.in_range (Z.of_nat limit).
Proof.
  unfold Db.binds, list_statement.
  rewrite !ilike_if_keys.
  destruct (ilike_if_window email Contact.email
              (Repository.ilike_if surname Contact.surname
                 (Repository.ilike_if name Contact.name
                    (Db.limit
                       (Db.offset
                          (Db.filter Db.select_Contact
                                     (Contact.owned_by owner))
                          offset) limit)))) as [-> ->].
  destruct (ilike_if_window surname Contact.surname
              (Repository.ilike_if name Contact.name
                 (Db.limit
                    (Db.offset
                       (Db.filter Db.select_Contact
                                  (Contact.owned_by owner))
                       offset) limit))) as [-> ->].
  destruct (ilike_if_window name Contact.name
              (Db.limit
                 (Db.offset
                    (Db.filter Db.select_Contact (Contact.owned_by owner))
                    offset) limit)) as [-> ->].
  reflexivity.
Qed.

(** The two ways a listing can go: the page, or the driver's refusal of
    an offset or limit outside its range. *)
Lemma get_contacts_cases limit offset name surname email owner s :
  Repository.get_contacts limit offset name surname email owner s
  = if Db.in_range (Z.of_nat offset) && Db.in_range (Z.of_nat limit)
    then
      (inr (Db.run (list_statement limit offset name surname email owner)
                   (Db.table s)),
       Db.drop_pending
         (Db.record_call Db.Close false
                         (Db.record_call Db.Execute true s)))
    else
      (inl (Db.OverflowError Db.integer_out_of_range),
       Db.record_call Db.Execute true s).
Proof.
  rewrite <- (list_statement_binds limit offset name surname email owner s).
  unfold Repository.get_contacts, Db.bind, Db.execute.
  fold (list_statement limit offset name surname email owner).
  destruct (Db.binds s _); reflexivity.
Qed.

Lemma get_contacts_run limit offset name surname email owner s :
  Db.in_range (Z.of_nat offset) = true ->
  Db.in_range (Z.of_nat limit) = true ->
  Repository.get_contacts limit offset name surname email owner s
  = (inr (Db.run (list_statement limit offset name surname email owner)
                 (Db.table s)),
     Db.drop_pending
       (Db.record_call Db.Close false (Db.record_call Db.Execute true s))).
Proof. intros Ho Hl. rewrite get_contacts_cases, Ho, Hl. reflexivity. Qed.

Lemma list_statement_run limit offset name surname email owner rows :
  Db.run (list_statement limit offset name surname email owner) rows
  = firstn limit
      (skipn offset
         (List.filter
            (Db.satisfies
               (list_statement limit offset name surname email owner))
            rows)).
Proof.
  unfold Db.run, list_statement.
  destruct (ilike_if_window email Contact.email
              (Repository.ilike_if surname Contact.surname
                 (Repository.ilike_if name Contact.name
                    (Db.limit
                       (Db.offset
                          (Db.filter Db.select_Contact
                                     (Contact.owned_by owner))
                          offset) limit)))) as [-> ->].
  destruct (ilike_if_window surname Contact.surname
              (Repository.ilike_if name Contact.name
                 (Db.limit
                    (Db.offset
                       (Db.filter Db.select_Contact
                                  (Contact.owned_by owner))
                       offset) limit))) as [-> ->].
  destruct (ilike_if_window name Contact.name
              (Db.limit
                 (Db.offset
                    (Db.filter Db.select_Contact (Contact.owned_by owner))
                    offset) limit)) as [-> ->].
  reflexivity.
Qed.

Lemma list_statement_owned limit offset name surname email owner c :
  Db.satisfies (list_statement limit offset name surname email owner) c
  = true ->
  Contact.owned_by owner c = true.
Proof.
  unfold list_statement. intros H.
  do 3 apply ilike_if_narrows in H.
  unfold Db.satisfies in H. simpl in H.
  rewrite andb_true_r in H. exact H.
Qed.


Lemma owned_by_user_id (owner : User.t) (c : Contact.t) :
  Contact.owned_by owner c = true <->
  Contact.user_id c = Some (User.id owner).
Proof.
  unfold Contact.owned_by, Contact.opt_eqb.
  destruct (Contact.user_id c) as [k|]; split; intros H;
    try discriminate.
  - apply Z.eqb_eq in H. congruence.
  - injection H as ->. apply Z.eqb_refl.
Qed.

Lemma has_id_id (pk : Z) (c : Contact.t) :
  Contact.has_id pk c = true <-> Contact.id c = Some pk.
Proof.
  unfold Contact.has_id, Contact.opt_eqb.
  destruct (Contact.id c) as [k|]; split; intros H; try discriminate.
  - apply Z.eqb_eq in H. congruence.
  - injection H as ->. apply Z.eqb_refl.
Qed.

Lemma by_id_and_user_satisfies cid owner c :
  Db.satisfies (Repository.by_id_and_user cid owner) c
  = Contact.has_id cid c && Contact.owned_by owner c.
Proof.
  unfold Db.satisfies, Repository.by_id_and_user. simpl.
  rewrite andb_true_r. reflexivity.
Qed.

Lemma by_id_and_user_run cid owner rows :
  Db.run (Repository.by_id_and_user cid owner) rows
  = List.filter
      (fun c => Contact.has_id cid c && Contact.owned_by owner c) rows.
Proof.
  unfold Db.run. simpl. apply filter_ext.
  intros c. apply by_id_and_user_satisfies.
Qed.

(** The lookup by id and owner binds one parameter, the id. *)
Lemma execute_by_id cid owner s :
  Db.execute (Repository.by_id_and_user cid owner) s
  = if Db.binds_key s cid
    then (inr (List.filter
                 (fun c => Contact.has_id cid c && Contact.owned_by owner c)
                 (Db.table s)),
          Db.record_call Db.Execute true s)
    else (inl (Db.OverflowError Db.integer_out_of_range),
          Db.record_call Db.Execute true s).
Proof.
  unfold Db.execute, Db.binds. rewrite by_id_and_user_run. simpl.
  rewrite !andb_true_r. reflexivity.
Qed.

Lemma in_range_binds_key s pk :
  Db.in_range pk = true -> Db.binds_key s pk = true.
Proof. unfold Db.binds_key. intros ->. reflexivity. Qed.

Lemma get_contact_cases cid owner s :
  Repository.get_contact cid owner s
  = if Db.binds_key s cid
    then
      (Db.scalar_one_or_none
         (List.filter
            (fun c => Contact.has_id cid c && Contact.owned_by owner c)
            (Db.table s)),
       Db.drop_pending
         (Db.record_call Db.Close false
                         (Db.record_call Db.Execute true s)))
    else
      (inl (Db.OverflowError Db.integer_out_of_range),
       Db.record_call Db.Execute true s).
Proof.
  unfold Repository.get_contact, Db.bind. rewrite execute_by_id.
  destruct (Db.binds_key s cid); reflexivity.
Qed.

Lemma get_contact_run cid owner s :
  Db.binds_key s cid = true ->
  Repository.get_contact cid owner s
  = (Db.scalar_one_or_none
       (List.filter
          (fun c => Contact.has_id cid c && Contact.owned_by owner c)
          (Db.table s)),
     Db.drop_pending
       (Db.record_call Db.Close false (Db.record_call Db.Execute true s))).
Proof. intros H. rewrite get_contact_cases, H. reflexivity. Qed.

End Statements.

(** ** Pagination *)

Section Pagination.

Context {A : Type}.

Lemma page_front (n : nat) (l : list A) (x : A) :
  In x (firstn n l) -> In x l.
Proof.
  intros H. rewrite <- (firstn_skipn n l).
  apply in_or_app. left. exact H.
Qed.

Lemma page_back (n : nat) (l : list A) (x : A) :
  In x (skipn n l) -> In x l.
Proof.
  intros H. rewrite <- (firstn_skipn n l).
  apply in_or_app. right. exact H.
Qed.

Lemma filter_none (p : A -> bool) (l : list A) :
  (forall x, In x l -> p x = false) -> List.filter p l = [].
Proof.
  induction l as [|a l IH]; intros H; [reflexivity|].
  simpl. rewrite (H a (or_introl eq_refl)).
  apply IH. intros x Hx. apply H. right. exact Hx.
Qed.

End Pagination.

(** ** Listing and reading contacts *)

(** C10.  An empty string passed as the name, surname or email filter of
    [get_contacts] is not applied: the call behaves exactly as with no
    filter in that position, result and session alike. *)
Theorem empty_filter_is_no_filter :
  forall (limit offset : nat) (name surname email : option string)
         (owner : User.t) (s : Db.Session),
    Repository.get_contacts limit offset (Some "") surname email owner s
    = Repository.get_contacts limit offset None surname email owner s
    /\ Repository.get_contacts limit offset name (Some "") email owner s
       = Repository.get_contacts limit offset name None email owner s
    /\ Repository.get_contacts limit offset name surname (Some "") owner s
       = Repository.get_contacts limit offset name surname None owner s.
Proof. intros. repeat split; reflexivity. Qed.




(** The driver's range at work: an id or an offset of 2^63 is refused
    while the statement is bound, before anything is read. *)
Example parameters_out_of_range_are_refused :
  fst (Repository.get_contact (2 ^ 63) Sample.alice Sample.book)
  = inl (Db.OverflowError Db.integer_out_of_range)
  /\ fst (Repository.get_contacts 10 (Z.to_nat (2 ^ 63)) None None None
                                  Sample.alice Sample.book)
     = inl (Db.OverflowError Db.integer_out_of_range).
Proof.
  split.
  - reflexivity.
  - rewrite get_contacts_cases.
    replace (Db.in_range (Z.of_nat (Z.to_nat (2 ^ 63)))) with false;
      [reflexivity|].
    rewrite Z2Nat.id by (apply Z.pow_nonneg; lia). reflexivity.
Qed.

(** ** Upcoming birthdays *)

Section Birthdays.

Lemma birthday_clause_in_window (today horizon : Calendar.date)
      (c : Contact.t) :
  Repository.birthday_clause today horizon c = true <->
  Spec.in_window today horizon (Contact.birthday c).
Proof.
  unfold Repository.birthday_clause, Spec.in_window,
    Repository.extract_month, Repository.extract_day.
  destruct (Contact.birthday c) as [by_ bm bd].
  destruct today as [ty tm td], horizon as [hy hm hd]. simpl.
  rewrite orb_true_iff, !andb_true_iff, negb_true_iff, orb_true_iff,
    !andb_true_iff, !Z.eqb_eq, Z.eqb_neq, !Z.geb_le, !Z.leb_le.
  lia.
Qed.

Lemma get_upcoming_birthdays_run today horizon owner s :
  Calendar.add_days today 7 = Some horizon ->
  Repository.get_upcoming_birthdays today owner s
  = (inr (List.filter (Repository.birthday_clause today horizon)
                      (Db.table s)),
     Db.drop_pending
       (Db.record_call Db.Close false (Db.record_call Db.Execute true s))).
Proof.
  intros H. unfold Repository.get_upcoming_birthdays. rewrite H.
  unfold Db.bind, Db.execute, Db.close, Db.ret, Db.run. simpl.
  f_equal. f_equal. apply filter_ext. intros c.
  unfold Db.satisfies. simpl. apply andb_true_r.
Qed.

End Birthdays.

(** C2.  With [horizon = today + 7 days], [get_upcoming_birthdays] returns
    exactly the stored contacts whose birthday satisfies the month-and-day
    rule: Case A when [today] and [horizon] share a month, Case B when they
    do not. *)
Theorem upcoming_birthdays_follow_the_window_rule :
  forall (today horizon : Calendar.date) (owner : User.t) (s : Db.Session),
    Calendar.add_days today 7 = Some horizon ->
    exists result s',
      Repository.get_upcoming_birthdays today owner s = (inr result, s')
      /\ forall c,
          In c result <->
          In c (Db.table s)
          /\ Spec.in_window today horizon (Contact.birthday c).
Proof.
  intros today horizon owner s H.
  rewrite (get_upcoming_birthdays_run _ _ _ _ H).
  eexists. eexists. split; [reflexivity|].
  intros c. rewrite filter_In, birthday_clause_in_window. reflexivity.
Qed.

(** C2 on the specification's dates.  From 2024-01-28 the horizon is
    2024-02-04: January 30 matches, February 10 and January 20 do not.
    From 2024-06-01 the horizon is 2024-06-08: June 5 matches, June 9 does
    not. *)
Lemma upcoming_birthdays_follow_the_window_rule_witness :
  (Calendar.add_days Sample.jan28 7 = Some Sample.feb04
   /\ exists result s',
       Repository.get_upcoming_birthdays Sample.jan28 Sample.alice
                                         Sample.book = (inr result, s')
       /\ In Sample.jan30 result
       /\ ~ In Sample.feb10 result
       /\ ~ In Sample.jan20 result)
  /\ (Calendar.add_days Sample.jun01 7 = Some Sample.jun08
      /\ exists result s',
          Repository.get_upcoming_birthdays Sample.jun01 Sample.alice
                                            Sample.book = (inr result, s')
          /\ In Sample.jun05 result
          /\ ~ In Sample.jun09 result).
Proof.
  split.
  - split; [reflexivity|].
    destruct (upcoming_birthdays_follow_the_window_rule
                Sample.jan28 Sample.feb04 Sample.alice Sample.book eq_refl)
      as (result & s' & Hrun & Hrule).
    exists result, s'. split; [exact Hrun|].
    split; [|split].
    + apply Hrule. split; [left; reflexivity|].
      right. split; [discriminate|].
      left. split; [reflexivity|]. simpl. lia.
    + intros Hin. apply Hrule in Hin. destruct Hin as [_ Hw].
      unfold Spec.in_window in Hw. simpl in Hw. lia.
    + intros Hin. apply Hrule in Hin. destruct Hin as [_ Hw].
      unfold Spec.in_window in Hw. simpl in Hw. lia.
  - split; [reflexivity|].
    destruct (upcoming_birthdays_follow_the_window_rule
                Sample.jun01 Sample.jun08 Sample.alice Sample.book eq_refl)
      as (result & s' & Hrun & Hrule).
    exists result, s'. split; [exact Hrun|].
    split.
    + apply Hrule. split; [simpl; tauto|].
      left. split; [reflexivity|]. split; [reflexivity|]. simpl. lia.
    + intros Hin. apply Hrule in Hin. destruct Hin as [_ Hw].
      unfold Spec.in_window in Hw. simpl in Hw. lia.
Defined.

(** C1, the defect.  The query of [get_upcoming_birthdays] carries no
    ownership clause, so the answer is the same for every user: called for
    Alice on 2024-01-28 it returns Flo's contact, which belongs to Bob, and
    Gus's, which belongs to nobody. *)
Theorem upcoming_birthdays_ignore_the_owner :
  (forall (today : Calendar.date) (owner other : User.t) (s : Db.Session),
      Repository.get_upcoming_birthdays today owner s
      = Repository.get_upcoming_birthdays today other s)
  /\ fst (Repository.get_upcoming_birthdays Sample.jan28 Sample.alice
                                            Sample.book)
     = inr [Sample.jan30; Sample.theirs; Sample.nobodys]
  /\ User.id Sample.alice = 1
  /\ Contact.user_id Sample.theirs = Some 2
  /\ Contact.user_id Sample.nobodys = None.
Proof. repeat split; reflexivity. Qed.

(** ** Creating a contact *)

Section Create.

Lemma Contact_init_dump body owner :
  Contact_init (Schema.model_dump body) owner
  = Contact.Make None (Schema.name body) (Schema.surname body)
                 (Schema.email body) (Schema.phone body)
                 (Schema.birthday body) None None (Some (User.id owner)).
Proof. reflexivity. Qed.

Lemma apply_change_error clock st ch e :
  Db.apply_change clock st ch = inl e ->
  exists m, e = Db.SQLAlchemyError m.
Proof.
  destruct st as [[rows seq] idm].
  destruct ch as [c|c|c]; simpl.
  - destruct (existsb _ rows); intros H; inversion H; eauto.
  - destruct (Contact.id c) as [pk|]; [|intros H; inversion H; eauto].
    destruct (find _ rows) as [old|]; [|intros H; inversion H; eauto].
    destruct (Contact.eqb old c); [discriminate|].
    destruct (existsb _ rows); intros H; inversion H; eauto.
  - destruct (Contact.id c); intros H; inversion H; eauto.
Qed.

Lemma flush_error clock chs : forall st e,
  Db.flush clock st chs = inl e -> exists m, e = Db.SQLAlchemyError m.
Proof.
  induction chs as [|ch rest IH]; intros st e; simpl; [discriminate|].
  destruct (Db.apply_change clock st ch) as [e'|st'] eqn:E.
  - intros H. injection H as <-. eapply apply_change_error, E.
  - apply IH.
Qed.

(** Past the birthday test, [create_contact] is its [try] statement. *)
Lemma create_contact_try today body owner :
  Calendar.geb (Schema.birthday body) today = false ->
  Repository.create_contact today body owner
  = Db.try_finally
      (Db.try_except
         (Spec.persist (Contact_init (Schema.model_dump body) owner))
         Repository.on_database_error)
      Db.close.
Proof.
  intros H. unfold Repository.create_contact. rewrite H. reflexivity.
Qed.

Lemma create_contact_past_outcome today body owner s :
  Calendar.geb (Schema.birthday body) today = false ->
  (exists c, fst (Repository.create_contact today body owner s) = inr c)
  \/ (exists m,
         fst (Repository.create_contact today body owner s)
         = inl (Db.HTTPException 500 m)).
Proof.
  intros H. unfold Repository.create_contact. rewrite H.
  unfold Db.try_finally, Db.try_except, Db.bind, Db.add, Db.commit,
    Db.refresh, Db.close.
  simpl.
  destruct (Db.flush _ _ _) as [e|[[rows seq] idm]] eqn:E.
  - destruct (flush_error _ _ _ _ E) as [m ->]. simpl. right. eauto.
  - simpl. destruct (Db.key_of idm _) as [pk|]; simpl.
    + destruct (find _ rows) as [row|]; simpl; eauto.
    + eauto.
Qed.


Lemma opt_eqb_refl (a : option Z) : Contact.opt_eqb a a = true.
Proof. destruct a; simpl; [apply Z.eqb_refl | reflexivity]. Qed.

Lemma date_eqb_refl (d : Calendar.date) : Calendar.eqb d d = true.
Proof. unfold Calendar.eqb. rewrite !Z.eqb_refl. reflexivity. Qed.

Lemma Contact_eqb_refl (c : Contact.t) : Contact.eqb c c = true.
Proof.
  unfold Contact.eqb.
  rewrite !opt_eqb_refl, !String.eqb_refl, date_eqb_refl. reflexivity.
Qed.

Lemma find_present {A} (p : A -> bool) (l : list A) (x : A) :
  In x l -> p x = true -> exists y, find p l = Some y.
Proof.
  induction l as [|a l IH]; intros Hin Hp; [destruct Hin|].
  simpl. destruct (p a) eqn:E; [eauto|].
  destruct Hin as [->|Hin]; [congruence|]. apply IH; assumption.
Qed.

Lemma find_last {A} (p : A -> bool) (l : list A) (x : A) :
  (forall a, In a l -> p a = false) -> p x = true ->
  find p (l ++ [x]) = Some x.
Proof.
  induction l as [|a l IH]; intros Hl Hx; simpl.
  - rewrite Hx. reflexivity.
  - rewrite (Hl a (or_introl eq_refl)).
    apply IH; [|exact Hx]. intros b Hb. apply Hl. right. exact Hb.
Qed.

Lemma flush_app clock chs : forall st ch,
  Db.flush clock st (chs ++ [ch])
  = match Db.flush clock st chs with
    | inl e => inl e
    | inr st' => Db.apply_change clock st' ch
    end.
Proof.
  induction chs as [|c rest IH]; intros st ch; simpl.
  - destruct (Db.apply_change clock st ch); reflexivity.
  - destruct (Db.apply_change clock st c); [reflexivity|]. apply IH.
Qed.

(** Once a flush has inserted an object, the object can be refreshed. *)
Lemma flush_insert_refreshable clock st chs c rows seq idm :
  Contact.id c = None ->
  Db.flush clock st (chs ++ [Db.Insert c]) = inr (rows, seq, idm) ->
  exists pk row,
    Db.key_of idm c = Some pk /\ find (Contact.has_id pk) rows = Some row.
Proof.
  intros Hid. rewrite flush_app.
  destruct (Db.flush clock st chs) as [e|[[rows0 seq0] idm0]];
    [discriminate|].
  simpl. destruct (existsb _ rows0); [discriminate|].
  intros H. injection H as <- <- <-.
  exists seq0. 
  destruct (find_present (Contact.has_id seq0)
              (rows0 ++
                 [Contact.set_updated_at
                    (Db.default_now clock (Contact.updated_at c))
                    (Contact.set_created_at
                       (Db.default_now clock (Contact.created_at c))
                       (Contact.set_id (Some seq0) c))])
              (Contact.set_updated_at
                    (Db.default_now clock (Contact.updated_at c))
                    (Contact.set_created_at
                       (Db.default_now clock (Contact.created_at c))
                       (Contact.set_id (Some seq0) c)))) as [row Hrow].
  - apply in_or_app. right. left. reflexivity.
  - unfold Contact.has_id. simpl. apply Z.eqb_refl.
  - exists row. split; [|exact Hrow].
    destruct idm0; simpl; rewrite Hid, Contact_eqb_refl; reflexivity.
Qed.


Lemma ltb_geb a b : Calendar.ltb a b = true -> Calendar.geb a b = false.
Proof. unfold Calendar.geb. intros ->. reflexivity. Qed.

Lemma geb_not_ltb a b : Calendar.ltb a b = false -> Calendar.geb a b = true.
Proof. unfold Calendar.geb. intros ->. reflexivity. Qed.

Lemma below_fresh seq rows r :
  Inv.below seq rows = true -> In r rows -> Contact.has_id seq r = false.
Proof.
  unfold Inv.below. rewrite forallb_forall. intros H Hin.
  specialize (H r Hin). unfold Contact.has_id, Contact.opt_eqb.
  destruct (Contact.id r) as [pk|]; [|reflexivity].
  apply Z.ltb_lt in H. apply Z.eqb_neq. lia.
Qed.

Lemma idle_pending s : Inv.idle s = true -> Db.pending s = [].
Proof. unfold Inv.idle. destruct (Db.pending s); [reflexivity|discriminate]. Qed.

Lemma well_formed_parts s :
  Inv.well_formed s = true ->
  Db.pending s = []
  /\ Inv.distinct_ids (Db.table s) = true
  /\ Inv.distinct_emails (Db.table s) = true
  /\ Inv.below (Db.sequence s) (Db.table s) = true.
Proof.
  unfold Inv.well_formed. rewrite !andb_true_iff.
  intros [[[Hi Hd] He] Hb]. auto using idle_pending.
Qed.

End Create.

(** C9.  When [create_contact] rejects a birthday that is not strictly in
    the past, it raises before it touches the session: the session after
    the call is the session before it, so no row is added, nothing is
    staged, and the trace gains no call (no add, commit, rollback or
    close). *)
Theorem validation_rejects_before_any_database_call :
  forall (today : Calendar.date) (body : Schema.ContactSchema)
         (owner : User.t) (s : Db.Session),
    Calendar.geb (Schema.birthday body) today = true ->
    Repository.create_contact today body owner s
    = (inl (Db.HTTPException 400 "Birthday must be in the past"), s).
Proof.
  intros today body owner s H.
  unfold Repository.create_contact. rewrite H. reflexivity.
Qed.

(** C9 at a concrete call: a body dated 2024-06-01 sent on 2024-06-01. *)
Lemma validation_rejects_before_any_database_call_witness :
  Calendar.geb (Schema.birthday Sample.born_today) Sample.jun01 = true
  /\ Repository.create_contact Sample.jun01 Sample.born_today Sample.alice
                               Sample.book
     = (inl (Db.HTTPException 400 "Birthday must be in the past"),
        Sample.book).
Proof.
  split; [reflexivity|].
  apply (validation_rejects_before_any_database_call
           Sample.jun01 Sample.born_today Sample.alice Sample.book).
  reflexivity.
Defined.

(** C3, as amended.  [create_contact] fails with HTTP 400, "Birthday must
    be in the past", if and only if the birthday is equal to or later than
    the current date.  For a strictly past birthday, on a well-formed
    session in which no stored contact has the body's email, it succeeds:
    the returned contact is appended to the table, carries the body's
    fields, belongs to [owner], has the server clock as both timestamps,
    and its id is the next value of the key sequence, which no stored row
    has. *)
Theorem create_contact_outcomes :
  forall (today : Calendar.date) (body : Schema.ContactSchema)
         (owner : User.t) (s : Db.Session),
    (Calendar.geb (Schema.birthday body) today = true <->
     fst (Repository.create_contact today body owner s)
     = inl (Db.HTTPException 400 "Birthday must be in the past"))
    /\ (Calendar.ltb (Schema.birthday body) today = true ->
        Inv.well_formed s = true ->
        Inv.email_free (Schema.email body) (Db.table s) = true ->
        exists c s',
          Repository.create_contact today body owner s = (inr c, s')
          /\ Db.table s' = Db.table s ++ [c]
          /\ Contact.id c = Some (Db.sequence s)
          /\ (forall r, In r (Db.table s) -> Contact.id r <> Contact.id c)
          /\ Contact.user_id c = Some (User.id owner)
          /\ Spec.carries c body
          /\ Contact.created_at c = Some (Db.now s)
          /\ Contact.updated_at c = Some (Db.now s)).
Proof.
  intros today body owner s. split.
  - split.
    + intros H. unfold Repository.create_contact. rewrite H. reflexivity.
    + intros H. destruct (Calendar.geb (Schema.birthday body) today) eqn:E;
        [reflexivity|].
      destruct (create_contact_past_outcome today body owner s E)
        as [[c Hc]|[m Hm]]; congruence.
  - intros Hpast Hwf Hfree.
    apply ltb_geb in Hpast.
    destruct (well_formed_parts s Hwf) as (Hidle & _ & _ & Hbelow).
    unfold Inv.email_free in Hfree. apply negb_true_iff in Hfree.
    unfold Repository.create_contact. rewrite Hpast, Contact_init_dump.
    unfold Db.try_finally, Db.try_except, Db.bind, Db.add, Db.commit,
      Db.refresh, Db.close.
    simpl. rewrite Hidle. simpl. rewrite Hfree. simpl.
    rewrite Contact_eqb_refl.
    rewrite find_last;
      [|intros r Hr; apply (below_fresh _ _ _ Hbelow Hr)
       |unfold Contact.has_id; simpl; apply Z.eqb_refl].
    simpl. eexists. eexists. split; [reflexivity|].
    simpl. repeat split.
    intros r Hr Heq.
    pose proof (below_fresh _ _ _ Hbelow Hr) as Hfresh.
    apply has_id_id in Heq. congruence.
Qed.

(** C3 at a concrete call: Alice adds Hal on 2024-06-01. *)
Lemma create_contact_outcomes_witness :
  Calendar.ltb (Schema.birthday Sample.hal) Sample.jun01 = true
  /\ Inv.well_formed Sample.book = true
  /\ Inv.email_free (Schema.email Sample.hal) (Db.table Sample.book) = true
  /\ exists c s',
      Repository.create_contact Sample.jun01 Sample.hal Sample.alice
                                Sample.book = (inr c, s')
      /\ Db.table s' = Db.table Sample.book ++ [c]
      /\ Contact.id c = Some 8
      /\ Contact.user_id c = Some 1.
Proof.
  split; [reflexivity|]. split; [reflexivity|]. split; [reflexivity|].
  destruct (create_contact_outcomes Sample.jun01 Sample.hal Sample.alice
              Sample.book) as [_ Hok].
  destruct (Hok eq_refl eq_refl eq_refl)
    as (c & s' & Hrun & Htable & Hid & _ & Howner & _).
  exists c, s'. repeat split; assumption.
Defined.

(** C3 as stated fails: a strictly past birthday does not make the call
    succeed.  A body whose email is already stored is refused by the
    unique constraint and the call ends in HTTP 500. *)
Lemma past_birthday_can_still_fail :
  Calendar.ltb (Schema.birthday Sample.ann_again) Sample.jun01 = true
  /\ Inv.well_formed Sample.book = true
  /\ fst (Repository.create_contact Sample.jun01 Sample.ann_again
                                    Sample.alice Sample.book)
     = inl (Db.HTTPException 500
              ("Database error: " ++ Db.unique_violation)%string)
  /\ Db.table (snd (Repository.create_contact Sample.jun01 Sample.ann_again
                                              Sample.alice Sample.book))
     = Db.table Sample.book.
Proof. repeat split; reflexivity. Qed.

(** C7.  When the persistence layer raises [e] while [create_contact]
    stores a contact with a past birthday, the call ends in HTTP 500 with
    detail ["Database error: " ++ str e]; the table and the key sequence
    are as before the call, nothing stays staged, and the session has been
    rolled back and closed.  A body whose email is already stored makes
    the persistence layer raise in this way. *)
Theorem persistence_failure_rolls_back :
  forall (today : Calendar.date) (body : Schema.ContactSchema)
         (owner : User.t) (s : Db.Session),
    Calendar.ltb (Schema.birthday body) today = true ->
    (forall e,
        fst (Spec.persist (Contact_init (Schema.model_dump body) owner) s)
        = inl e ->
        exists s',
          Repository.create_contact today body owner s
          = (inl (Db.HTTPException
                    500 ("Database error: " ++ Db.str e)%string), s')
          /\ Db.table s' = Db.table s
          /\ Db.sequence s' = Db.sequence s
          /\ Db.pending s' = []
          /\ Db.closed s' = true
          /\ Db.calls s'
             = Db.calls s ++ [Db.Add; Db.Commit; Db.Rollback; Db.Close])
    /\ (Inv.idle s = true ->
        Inv.email_free (Schema.email body) (Db.table s) = false ->
        fst (Spec.persist (Contact_init (Schema.model_dump body) owner) s)
        = inl (Db.SQLAlchemyError Db.unique_violation)).
Proof.
  intros today body owner s Hpast. split.
  - intros e.
    apply ltb_geb in Hpast.
    unfold Repository.create_contact, Spec.persist. rewrite Hpast.
    unfold Db.try_finally, Db.try_except, Db.bind, Db.add, Db.commit,
      Db.refresh, Db.close.
    remember (Contact_init (Schema.model_dump body) owner) as c0 eqn:Hc0.
    simpl.
    destruct (Db.flush _ _ _) as [e'|[[rows seq] idm]] eqn:E.
    + simpl. intros H. injection H as ->.
      destruct (flush_error _ _ _ _ E) as [m ->]. simpl.
      eexists. split; [reflexivity|]. simpl.
      rewrite <- !app_assoc. repeat split.
    + simpl.
      destruct (flush_insert_refreshable _ _ _ c0 _ _ _
                  ltac:(subst c0; reflexivity) E) as (pk & row & -> & ->).
      simpl. discriminate.
  - intros Hidle Htaken.
    apply idle_pending in Hidle.
    unfold Inv.email_free in Htaken. apply negb_false_iff in Htaken.
    unfold Spec.persist. rewrite Contact_init_dump.
    unfold Db.bind, Db.add, Db.commit. simpl.
    rewrite Hidle. simpl. rewrite Htaken. reflexivity.
Qed.

(** C7 at a concrete call: Alice sends a body with Ann's stored email. *)
Lemma persistence_failure_rolls_back_witness :
  Calendar.ltb (Schema.birthday Sample.ann_again) Sample.jun01 = true
  /\ Inv.idle Sample.book = true
  /\ Inv.email_free (Schema.email Sample.ann_again) (Db.table Sample.book)
     = false
  /\ exists s',
      Repository.create_contact Sample.jun01 Sample.ann_again Sample.alice
                                Sample.book
      = (inl (Db.HTTPException
                500 ("Database error: " ++ Db.unique_violation)%string), s')
      /\ Db.table s' = Db.table Sample.book
      /\ Db.closed s' = true.
Proof.
  split; [reflexivity|]. split; [reflexivity|]. split; [reflexivity|].
  destruct (persistence_failure_rolls_back
              Sample.jun01 Sample.ann_again Sample.alice Sample.book eq_refl)
    as [Hfail Hunique].
  destruct (Hfail _ (Hunique eq_refl eq_refl))
    as (s' & Hrun & Htable & _ & _ & Hclosed & _).
  exists s'. repeat split; assumption.
Defined.

(** ** Updating a contact *)

Section Update.

Lemma opt_eqb_eq (a b : option Z) : Contact.opt_eqb a b = true -> a = b.
Proof.
  destruct a, b; simpl; try discriminate; [|reflexivity].
  intros H. apply Z.eqb_eq in H. congruence.
Qed.

Lemma date_eqb_eq (a b : Calendar.date) : Calendar.eqb a b = true -> a = b.
Proof.
  destruct a, b. unfold Calendar.eqb. simpl.
  rewrite !andb_true_iff, !Z.eqb_eq. intros [[-> ->] ->]. reflexivity.
Qed.

Lemma Contact_eqb_eq (a b : Contact.t) : Contact.eqb a b = true -> a = b.
Proof.
  destruct a, b. unfold Contact.eqb. simpl.
  rewrite !andb_true_iff, !String.eqb_eq.
  intros [[[[[[[[Hi ->] ->] ->] ->] Hb] Hc] Hu] Ho].
  apply opt_eqb_eq in Hi, Hc, Hu, Ho. apply date_eqb_eq in Hb.
  congruence.
Qed.

Lemma eqb_overwritten (old : Contact.t) (b : Schema.ContactSchema) :
  Contact.eqb old (Spec.overwritten old b) = true <-> Spec.carries old b.
Proof.
  split.
  - intros H. apply Contact_eqb_eq in H.
    unfold Spec.carries. rewrite H at 1 2 3 4 5. simpl. auto.
  - intros (Hn & Hs & He & Hp & Hb).
    replace (Spec.overwritten old b) with old; [apply Contact_eqb_refl|].
    destruct old. unfold Spec.overwritten. simpl in *. congruence.
Qed.

Lemma no_such_id pk rows :
  existsb (Contact.has_id pk) rows = false ->
  forall r, In r rows -> Contact.has_id pk r = false.
Proof.
  intros H r Hr. destruct (Contact.has_id pk r) eqn:E; [|reflexivity].
  assert (existsb (Contact.has_id pk) rows = true)
    by (apply existsb_exists; eauto).
  congruence.
Qed.

Lemma select_by_key (q : Contact.t -> bool) cid rows :
  Inv.distinct_ids rows = true ->
  List.filter (fun c => Contact.has_id cid c && q c) rows
  = match find (Contact.has_id cid) rows with
    | Some r => if q r then [r] else []
    | None => []
    end.
Proof.
  induction rows as [|a rest IH]; intros Hd; [reflexivity|].
  simpl in Hd. destruct (Contact.id a) as [pk|] eqn:Ha; [|discriminate].
  apply andb_prop in Hd as [Hfresh Hd]. apply negb_true_iff in Hfresh.
  simpl. destruct (Contact.has_id cid a) eqn:E.
  - apply has_id_id in E. assert (pk = cid) by congruence. subst pk.
    rewrite (filter_none (fun c => Contact.has_id cid c && q c) rest).
    + simpl. destruct (q a); reflexivity.
    + intros r Hr. rewrite (no_such_id _ _ Hfresh r Hr). reflexivity.
  - simpl. apply IH, Hd.
Qed.

Lemma find_by_key cid rows old :
  Inv.distinct_ids rows = true ->
  In old rows -> Contact.has_id cid old = true ->
  find (Contact.has_id cid) rows = Some old.
Proof.
  induction rows as [|a rest IH]; intros Hd Hin Hid; [destruct Hin|].
  simpl in Hd. destruct (Contact.id a) as [pk|] eqn:Ha; [|discriminate].
  apply andb_prop in Hd as [Hfresh Hd]. apply negb_true_iff in Hfresh.
  simpl. destruct Hin as [->|Hin].
  - rewrite Hid. reflexivity.
  - destruct (Contact.has_id cid a) eqn:E; [|apply IH; assumption].
    apply has_id_id in E. assert (pk = cid) by congruence. subst pk.
    rewrite (no_such_id _ _ Hfresh old Hin) in Hid. discriminate.
Qed.

(** A key found in the table was handed out by the sequence, so the driver
    binds it. *)
Lemma stored_key_binds s cid c :
  Inv.below (Db.sequence s) (Db.table s) = true ->
  In c (Db.table s) -> Contact.has_id cid c = true ->
  Db.binds_key s cid = true.
Proof.
  unfold Inv.below. rewrite forallb_forall. intros Hb Hin Hid.
  specialize (Hb c Hin). apply has_id_id in Hid. rewrite Hid in Hb.
  unfold Db.binds_key. rewrite Hb. apply orb_true_r.
Qed.

(** The lookup of an id that no contact of [owner] has. *)
Lemma execute_nobody cid owner s :
  Db.binds_key s cid = true ->
  (forall c, In c (Db.table s) -> Contact.id c = Some cid ->
             Contact.user_id c <> Some (User.id owner)) ->
  Db.execute (Repository.by_id_and_user cid owner) s
  = (inr [], Db.record_call Db.Execute true s).
Proof.
  intros Hb Hnone. rewrite execute_by_id, Hb, filter_none; [reflexivity|].
  intros c Hc.
  destruct (Contact.has_id cid c && Contact.owned_by owner c) eqn:E;
    [|reflexivity].
  apply andb_prop in E as [Hid Hown].
  exfalso. apply (Hnone c Hc).
  - apply has_id_id, Hid.
  - apply owned_by_user_id, Hown.
Qed.

(** The lookup of a stored contact of [owner] by its key. *)
Lemma execute_somebody cid owner s old :
  Inv.well_formed s = true ->
  In old (Db.table s) ->
  Contact.has_id cid old = true ->
  Contact.owned_by owner old = true ->
  Db.execute (Repository.by_id_and_user cid owner) s
  = (inr [old], Db.record_call Db.Execute true s).
Proof.
  intros Hwf Hin Hid Hown.
  destruct (well_formed_parts s Hwf) as (_ & Hids & _ & Hbelow).
  rewrite execute_by_id, (stored_key_binds _ _ _ Hbelow Hin Hid),
    (select_by_key _ _ _ Hids), (find_by_key _ _ _ Hids Hin Hid), Hown.
  reflexivity.
Qed.

Lemma key_of_persistent idm c pk :
  Contact.id c = Some pk -> Db.key_of idm c = Some pk.
Proof. intros H. destruct idm; simpl; rewrite H; reflexivity. Qed.

Lemma find_replaced cid row rows old :
  find (Contact.has_id cid) rows = Some old ->
  Contact.has_id cid row = true ->
  find (Contact.has_id cid)
       (map (fun r => if Contact.has_id cid r then row else r) rows)
  = Some row.
Proof.
  induction rows as [|a rest IH]; intros Hf Hrow; [discriminate|].
  simpl in *. destruct (Contact.has_id cid a) eqn:E.
  - rewrite Hrow. reflexivity.
  - rewrite E. apply IH; assumption.
Qed.

Lemma replace_by_itself cid rows old :
  Inv.distinct_ids rows = true ->
  In old rows -> Contact.has_id cid old = true ->
  map (fun r => if Contact.has_id cid r then old else r) rows = rows.
Proof.
  intros Hd Hin Hid.
  rewrite <- (map_id rows) at 2. apply map_ext_in. intros r Hr.
  destruct (Contact.has_id cid r) eqn:E; [|reflexivity].
  pose proof (find_by_key _ _ _ Hd Hin Hid) as H1.
  pose proof (find_by_key _ _ _ Hd Hr E) as H2. congruence.
Qed.

Lemma setattr_all_dump data old s :
  Db.pending s = [] ->
  Repository.setattr_all (Schema.model_dump data) old s
  = (inr (Spec.overwritten old data),
     Db.MakeSession (Db.table s) (Db.sequence s) (Db.now s)
                    [Db.Update (Spec.overwritten old data)]
                    (Db.identity s) (Db.closed s) (Db.calls s)).
Proof.
  intros Hp. unfold Repository.setattr_all, Schema.model_dump, Db.bind,
    Db.setattr, Db.ret.
  simpl. rewrite Hp. simpl.
  repeat (rewrite opt_eqb_refl; simpl). reflexivity.
Qed.

Lemma flush_update clock rows seq idm old data cid :
  Inv.distinct_ids rows = true ->
  In old rows ->
  Contact.has_id cid old = true ->
  Inv.email_free_for (Some cid) (Schema.email data) rows = true ->
  Db.flush clock (rows, seq, idm) [Db.Update (Spec.overwritten old data)]
  = inr (if Contact.eqb old (Spec.overwritten old data) then rows
         else map (fun r => if Contact.has_id cid r
                            then Contact.set_updated_at
                                   (Some clock) (Spec.overwritten old data)
                            else r) rows,
         seq, idm).
Proof.
  intros Hd Hin Hid Hfree.
  unfold Db.flush, Db.apply_change, Db.update_row.
  replace (Contact.id (Spec.overwritten old data)) with (Some cid)
    by (symmetry; apply has_id_id, Hid).
  rewrite (find_by_key _ _ _ Hd Hin Hid).
  destruct (Contact.eqb old (Spec.overwritten old data)); [reflexivity|].
  unfold Inv.email_free_for in Hfree. apply negb_true_iff in Hfree.
  unfold Contact.has_id. simpl Contact.email. rewrite Hfree.
  reflexivity.
Qed.

Lemma update_contact_found cid data owner s old :
  Inv.well_formed s = true ->
  In old (Db.table s) ->
  Contact.has_id cid old = true ->
  Contact.owned_by owner old = true ->
  Inv.email_free_for (Some cid) (Schema.email data) (Db.table s) = true ->
  Repository.update_contact cid data owner s
  = (inr (if Contact.eqb old (Spec.overwritten old data) then old
          else Contact.set_updated_at (Some (Db.now s))
                 (Spec.overwritten old data)),
     Db.MakeSession
       (if Contact.eqb old (Spec.overwritten old data) then Db.table s
        else map (fun r => if Contact.has_id cid r
                           then Contact.set_updated_at
                                  (Some (Db.now s))
                                  (Spec.overwritten old data)
                           else r) (Db.table s))
       (Db.sequence s) (Db.now s) [] (Db.identity s) true
       (Db.calls s ++ [Db.Execute; Db.Commit; Db.Refresh; Db.Close])).
Proof.
  intros Hwf Hin Hid Hown Hfree.
  destruct (well_formed_parts s Hwf) as (Hidle & Hids & _ & _).
  unfold Repository.update_contact, Db.bind.
  rewrite (execute_somebody _ _ _ _ Hwf Hin Hid Hown).
  unfold Db.lift, Db.scalar_one_or_none. cbv beta iota.
  rewrite setattr_all_dump by exact Hidle.
  unfold Db.commit.
  cbn [Db.now Db.table Db.sequence Db.identity Db.pending Db.record_call].
  rewrite (flush_update _ _ _ _ _ _ _ Hids Hin Hid Hfree).
  unfold Db.refresh.
  cbn [Db.now Db.table Db.sequence Db.identity Db.pending Db.record_call].
  rewrite (key_of_persistent _ _ cid)
    by (apply has_id_id in Hid; exact Hid).
  destruct (Contact.eqb old (Spec.overwritten old data)) eqn:E.
  - rewrite (find_by_key _ _ _ Hids Hin Hid).
    unfold Db.close, Db.ret, Db.drop_pending, Db.record_call. simpl.
    rewrite <- !app_assoc. reflexivity.
  - rewrite (find_replaced cid _ _ old)
      by (try apply find_by_key; assumption).
    unfold Db.close, Db.ret, Db.drop_pending, Db.record_call. simpl.
    rewrite <- !app_assoc. reflexivity.
Qed.

End Update.

(** C4, as amended.  On a well-formed session: if the id is within the
    driver's integer range and no stored contact has the id and belongs to
    [owner], [update_contact] raises HTTP 404 and leaves the table, the key
    sequence and the unit of work as they were.
    If such a contact exists and no other stored contact has the update's
    email, the call succeeds: the returned contact carries every field of
    the update, keeps its id, owner and creation time, and replaces the old
    row in the table; when the update changes at least one field, its
    modification timestamp is the server clock at the commit, and when it
    changes none, the row, timestamp included, is left as it was. *)
Theorem update_contact_outcomes :
  forall (cid : Z) (data : Schema.ContactUpdate) (owner : User.t)
         (s : Db.Session),
    Inv.well_formed s = true ->
    (Db.in_range cid = true ->
     (forall c, In c (Db.table s) -> Contact.id c = Some cid ->
                Contact.user_id c <> Some (User.id owner)) ->
     exists s',
       Repository.update_contact cid data owner s
       = (inl (Db.HTTPException 404 "Contact not found"), s')
       /\ Db.table s' = Db.table s
       /\ Db.sequence s' = Db.sequence s
       /\ Db.pending s' = []
       /\ Db.identity s' = Db.identity s)
    /\ (forall old,
           In old (Db.table s) ->
           Contact.id old = Some cid ->
           Contact.user_id old = Some (User.id owner) ->
           Inv.email_free_for (Some cid) (Schema.email data) (Db.table s)
           = true ->
           exists c s',
             Repository.update_contact cid data owner s = (inr c, s')
             /\ Spec.carries c data
             /\ Contact.id c = Contact.id old
             /\ Contact.user_id c = Contact.user_id old
             /\ Contact.created_at c = Contact.created_at old
             /\ Db.table s'
                = map (fun r => if Contact.has_id cid r then c else r)
                      (Db.table s)
             /\ (~ Spec.carries old data ->
                 Contact.updated_at c = Some (Db.now s))
             /\ (Spec.carries old data -> c = old)).
Proof.
  intros cid data owner s Hwf.
  destruct (well_formed_parts s Hwf) as (Hidle & Hids & _ & _).
  split.
  - intros Hrange Hnone.
    unfold Repository.update_contact, Db.bind.
    rewrite (execute_nobody _ _ _ (in_range_binds_key s _ Hrange) Hnone).
    simpl. eexists. split; [reflexivity|]. simpl. auto.
  - intros old Hin Hid Hown Hfree.
    apply (proj2 (has_id_id cid old)) in Hid.
    apply (proj2 (owned_by_user_id owner old)) in Hown.
    rewrite (update_contact_found _ _ _ _ _ Hwf Hin Hid Hown Hfree).
    eexists. eexists. split; [reflexivity|].
    destruct (Contact.eqb old (Spec.overwritten old data)) eqn:E.
    + apply eqb_overwritten in E.
      split; [exact E|]. split; [reflexivity|]. split; [reflexivity|].
      split; [reflexivity|].
      split; [symmetry; apply replace_by_itself; assumption|].
      split; [tauto|reflexivity].
    + split; [repeat split|]. split; [reflexivity|].
      split; [reflexivity|]. split; [reflexivity|].
      split; [reflexivity|]. split; [reflexivity|].
      intros Hsame. apply eqb_overwritten in Hsame. congruence.
Qed.


(** C4 at concrete calls: Alice overwrites Ann (id 1) with Hal's data, and
    tries the same on Flo (id 6), who belongs to Bob. *)
Lemma update_contact_outcomes_witness :
  Inv.well_formed Sample.book = true
  /\ (exists s',
         Repository.update_contact 6 Sample.hal Sample.alice Sample.book
         = (inl (Db.HTTPException 404 "Contact not found"), s')
         /\ Db.table s' = Db.table Sample.book)
  /\ (exists c s',
         Repository.update_contact 1 Sample.hal Sample.alice Sample.book
         = (inr c, s')
         /\ Spec.carries c Sample.hal
         /\ Contact.updated_at c = Some 500).
Proof.
  split; [reflexivity|]. split.
  - destruct (update_contact_outcomes 6 Sample.hal Sample.alice Sample.book
                eq_refl) as [Hmissing _].
    destruct Hmissing as (s' & Hrun & Htable & _).
    + reflexivity.
    + intros c Hin Hid. simpl in Hin.
      repeat (destruct Hin as [<-|Hin]; [discriminate|]).
      destruct Hin.
    + exists s'. split; assumption.
  - destruct (update_contact_outcomes 1 Sample.hal Sample.alice Sample.book
                eq_refl) as [_ Hfound].
    destruct (Hfound Sample.jan30 (or_introl eq_refl) eq_refl eq_refl
                eq_refl)
      as (c & s' & Hrun & Hcarries & _ & _ & _ & _ & Hstamp & _).
    exists c, s'. split; [exact Hrun|]. split; [exact Hcarries|].
    apply Hstamp. intros [Hname _]. discriminate Hname.
Defined.

(** C4 as stated fails: Bob Ray's contact (id 2) exists and belongs to
    Alice, yet an update that gives it Ann's stored email is refused by the
    unique constraint; the exception is not handled and no field is
    overwritten. *)
Lemma update_can_fail_on_an_existing_contact :
  In Sample.feb10 (Db.table Sample.book)
  /\ Contact.id Sample.feb10 = Some 2
  /\ Contact.user_id Sample.feb10 = Some (User.id Sample.alice)
  /\ fst (Repository.update_contact 2 Sample.ann_again Sample.alice
                                    Sample.book)
     = inl (Db.SQLAlchemyError Db.unique_violation)
  /\ Db.table (snd (Repository.update_contact 2 Sample.ann_again
                                              Sample.alice Sample.book))
     = Db.table Sample.book.
Proof.
  split; [right; left; reflexivity|]. repeat split; reflexivity.
Qed.

(** An update that repeats the stored fields emits no UPDATE, so the
    modification timestamp stays at 100 while the server clock reads
    500. *)
Example update_without_change_keeps_timestamp :
  Db.now Sample.book = 500
  /\ fst (Repository.update_contact 1 Sample.ann_same Sample.alice
                                    Sample.book)
     = inr Sample.jan30
  /\ Contact.updated_at Sample.jan30 = Some 100.
Proof. repeat split; reflexivity. Qed.

(** ** Deleting a contact *)

Section Delete.

Lemma delete_contact_found cid owner s c :
  Inv.well_formed s = true ->
  In c (Db.table s) ->
  Contact.has_id cid c = true ->
  Contact.owned_by owner c = true ->
  Repository.delete_contact cid owner s
  = (inr c,
     Db.MakeSession
       (List.filter (fun r => negb (Contact.has_id cid r)) (Db.table s))
       (Db.sequence s) (Db.now s) [] (Db.identity s) true
       (Db.calls s ++ [Db.Execute; Db.Delete; Db.Commit])).
Proof.
  intros Hwf Hin Hid Hown.
  destruct (well_formed_parts s Hwf) as (Hidle & Hids & _ & _).
  unfold Repository.delete_contact, Db.bind.
  rewrite (execute_somebody _ _ _ _ Hwf Hin Hid Hown).
  unfold Db.lift, Db.scalar_one_or_none, Db.delete, Db.commit.
  cbv beta iota.
  cbn [Db.now Db.table Db.sequence Db.identity Db.pending Db.stage
       Db.record_call Db.calls].
  rewrite Hidle. apply has_id_id in Hid.
  simpl. rewrite Hid. simpl. rewrite <- !app_assoc. reflexivity.
Qed.

Lemma delete_contact_not_found cid owner s :
  Db.binds_key s cid = true ->
  (forall c, In c (Db.table s) -> Contact.id c = Some cid ->
             Contact.user_id c <> Some (User.id owner)) ->
  Repository.delete_contact cid owner s
  = (inl (Db.HTTPException 404 "Contact not found"),
     Db.record_call Db.Execute true s).
Proof.
  intros Hb Hnone. unfold Repository.delete_contact, Db.bind.
  rewrite (execute_nobody _ _ _ Hb Hnone). reflexivity.
Qed.

Lemma update_contact_not_found cid data owner s :
  Db.binds_key s cid = true ->
  (forall c, In c (Db.table s) -> Contact.id c = Some cid ->
             Contact.user_id c <> Some (User.id owner)) ->
  Repository.update_contact cid data owner s
  = (inl (Db.HTTPException 404 "Contact not found"),
     Db.record_call Db.Execute true s).
Proof.
  intros Hb Hnone. unfold Repository.update_contact, Db.bind.
  rewrite (execute_nobody _ _ _ Hb Hnone). reflexivity.
Qed.

End Delete.

(** C5, as amended.  On a well-formed session: if the id is within the
    driver's integer range and no stored contact has the id and belongs to
    [owner], [delete_contact] raises HTTP 404 (and the table is untouched);
    if a stored contact has the id and belongs to [owner], the call returns
    that contact as it was, the table afterwards holds exactly the other
    rows, and [get_contact] for the same id and owner on the resulting
    session answers not-found. *)
Theorem delete_contact_outcomes :
  forall (cid : Z) (owner : User.t) (s : Db.Session),
    Inv.well_formed s = true ->
    (Db.in_range cid = true ->
     (forall c, In c (Db.table s) -> Contact.id c = Some cid ->
                Contact.user_id c <> Some (User.id owner)) ->
     exists s',
       Repository.delete_contact cid owner s
       = (inl (Db.HTTPException 404 "Contact not found"), s')
       /\ Db.table s' = Db.table s)
    /\ (forall c,
           In c (Db.table s) ->
           Contact.id c = Some cid ->
           Contact.user_id c = Some (User.id owner) ->
           exists s',
             Repository.delete_contact cid owner s = (inr c, s')
             /\ ~ In c (Db.table s')
             /\ (forall r, In r (Db.table s') <->
                           In r (Db.table s) /\ Contact.id r <> Some cid)
             /\ fst (Repository.get_contact cid owner s') = inr None).
Proof.
  intros cid owner s Hwf. split.
  - intros Hrange Hnone.
    rewrite (delete_contact_not_found _ _ _
               (in_range_binds_key s _ Hrange) Hnone).
    eexists. split; reflexivity.
  - intros c Hin Hid Hown.
    apply (proj2 (has_id_id cid c)) in Hid.
    apply (proj2 (owned_by_user_id owner c)) in Hown.
    rewrite (delete_contact_found _ _ _ _ Hwf Hin Hid Hown).
    eexists. split; [reflexivity|]. simpl Db.table.
    assert (Hrows : forall r,
               In r (List.filter (fun r => negb (Contact.has_id cid r))
                                 (Db.table s)) <->
               In r (Db.table s) /\ Contact.id r <> Some cid).
    { intros r. rewrite filter_In, negb_true_iff, <- has_id_id.
      destruct (Contact.has_id cid r); intuition congruence. }
    split; [|split].
    + intros Hc. apply Hrows in Hc. apply has_id_id in Hid. tauto.
    + exact Hrows.
    + destruct (well_formed_parts s Hwf) as (_ & _ & _ & Hbelow).
      rewrite get_contact_run
        by exact (stored_key_binds _ _ _ Hbelow Hin Hid).
      simpl fst. simpl Db.table.
      rewrite filter_none; [reflexivity|].
      intros r Hr. apply Hrows in Hr. destruct Hr as [_ Hr].
      destruct (Contact.has_id cid r) eqn:E; [|reflexivity].
      apply has_id_id in E. contradiction.
Qed.

(** C5 at concrete calls: Alice deletes Bob Ray (id 2), and tries to
    delete Flo (id 6), who belongs to Bob. *)
Lemma delete_contact_outcomes_witness :
  Inv.well_formed Sample.book = true
  /\ (exists s',
         Repository.delete_contact 6 Sample.alice Sample.book
         = (inl (Db.HTTPException 404 "Contact not found"), s'))
  /\ (exists s',
         Repository.delete_contact 2 Sample.alice Sample.book
         = (inr Sample.feb10, s')
         /\ ~ In Sample.feb10 (Db.table s')
         /\ fst (Repository.get_contact 2 Sample.alice s') = inr None).
Proof.
  split; [reflexivity|]. split.
  - destruct (delete_contact_outcomes 6 Sample.alice Sample.book eq_refl)
      as [Hmissing _].
    destruct Hmissing as (s' & Hrun & _).
    + reflexivity.
    + intros c Hin Hid. simpl in Hin.
      repeat (destruct Hin as [<-|Hin]; [discriminate|]).
      destruct Hin.
    + exists s'. exact Hrun.
  - destruct (delete_contact_outcomes 2 Sample.alice Sample.book eq_refl)
      as [_ Hfound].
    destruct (Hfound Sample.feb10 (or_intror (or_introl eq_refl)) eq_refl
                eq_refl)
      as (s' & Hrun & Hgone & _ & Hget).
    exists s'. repeat split; assumption.
Defined.

(** C5 as stated fails: no stored contact has the id 2^63, yet
    [delete_contact] does not answer not-found for it: the driver refuses
    to bind the id and the call ends in an [OverflowError]. *)
Lemma delete_of_an_unbindable_id_is_not_a_404 :
  Inv.well_formed Sample.book = true
  /\ (forall c, In c (Db.table Sample.book) ->
                Contact.id c <> Some (2 ^ 63))
  /\ fst (Repository.delete_contact (2 ^ 63) Sample.alice Sample.book)
     = inl (Db.OverflowError Db.integer_out_of_range)
  /\ fst (Repository.delete_contact (2 ^ 63) Sample.alice Sample.book)
     <> inl (Db.HTTPException 404 "Contact not found").
Proof.
  split; [reflexivity|]. split; [|split].
  - intros c Hin. simpl in Hin.
    repeat (destruct Hin as [<-|Hin]; [discriminate|]).
    destruct Hin.
  - reflexivity.
  - discriminate.
Qed.

(** The same id handed to [update_contact]. *)
Example update_of_an_unbindable_id_is_not_a_404 :
  fst (Repository.update_contact (2 ^ 63) Sample.hal Sample.alice
                                 Sample.book)
  = inl (Db.OverflowError Db.integer_out_of_range).
Proof. reflexivity. Qed.

(** ** Releasing the session *)

(** C8, the defect.  [delete_contact] never awaits [close]: whatever the
    arguments and the outcome, the calls it makes on the session hold no
    [Close].  On the not-found path (an id within the driver's range that
    no contact of [owner] has) the statement has begun a transaction and
    the HTTP 404 is raised with the session still open; the not-found path
    of [update_contact] raises before its [close] in the same way. *)
Theorem not_found_leaves_the_session_open :
  forall (cid : Z) (data : Schema.ContactUpdate) (owner : User.t)
         (s : Db.Session),
    (exists trace,
        Db.calls (snd (Repository.delete_contact cid owner s))
        = Db.calls s ++ trace
        /\ ~ In Db.Close trace)
    /\ (Db.in_range cid = true ->
        (forall c, In c (Db.table s) -> Contact.id c = Some cid ->
                   Contact.user_id c <> Some (User.id owner)) ->
        (exists s',
            Repository.delete_contact cid owner s
            = (inl (Db.HTTPException 404 "Contact not found"), s')
            /\ Db.closed s' = false
            /\ Db.calls s' = Db.calls s ++ [Db.Execute])
        /\ (exists s',
               Repository.update_contact cid data owner s
               = (inl (Db.HTTPException 404 "Contact not found"), s')
               /\ Db.closed s' = false
               /\ Db.calls s' = Db.calls s ++ [Db.Execute])).
Proof.
  intros cid data owner s. split.
  - unfold Repository.delete_contact, Db.bind, Db.execute, Db.lift.
    destruct (Db.binds s _); simpl.
    + destruct (Db.scalar_one_or_none _) as [e|[c|]]; simpl.
      * exists [Db.Execute]. split; [reflexivity|].
        simpl. intuition discriminate.
      * unfold Db.commit.
        destruct (Db.flush _ _ _) as [e|[[rows seq] idm]]; simpl;
          exists [Db.Execute; Db.Delete; Db.Commit];
          rewrite <- !app_assoc; (split; [reflexivity|]);
          simpl; intuition discriminate.
      * exists [Db.Execute]. split; [reflexivity|].
        simpl. intuition discriminate.
    + exists [Db.Execute]. split; [reflexivity|].
      simpl. intuition discriminate.
  - intros Hrange Hnone.
    pose proof (in_range_binds_key s _ Hrange) as Hb. split.
    + rewrite (delete_contact_not_found _ _ _ Hb Hnone).
      eexists. repeat split; reflexivity.
    + rewrite (update_contact_not_found _ _ _ _ Hb Hnone).
      eexists. repeat split; reflexivity.
Qed.

(** C8 at concrete calls: Alice asks to delete, and to update, Flo's
    contact (id 6), which belongs to Bob. *)
Lemma not_found_leaves_the_session_open_witness :
  (exists s',
      Repository.delete_contact 6 Sample.alice Sample.book
      = (inl (Db.HTTPException 404 "Contact not found"), s')
      /\ Db.closed s' = false
      /\ Db.calls s' = [Db.Execute])
  /\ (exists s',
         Repository.update_contact 6 Sample.hal Sample.alice Sample.book
         = (inl (Db.HTTPException 404 "Contact not found"), s')
         /\ Db.closed s' = false
         /\ Db.calls s' = [Db.Execute]).
Proof.
  destruct (not_found_leaves_the_session_open 6 Sample.hal Sample.alice
              Sample.book) as [_ Hopen].
  apply Hopen; [reflexivity|].
  intros c Hin Hid. simpl in Hin.
  repeat (destruct Hin as [<-|Hin]; [discriminate|]).
  destruct Hin.
Defined.

(** The other operations reach their [close]: [get_contact] on the same
    request, and [create_contact] in its [finally] clause, on success and
    on a failing commit alike. *)
Remark other_operations_close :
  Db.closed (snd (Repository.get_contact 6 Sample.alice Sample.book)) = true
  /\ Db.closed (snd (Repository.create_contact Sample.jun01 Sample.hal
                                               Sample.alice Sample.book))
     = true
  /\ Db.closed (snd (Repository.create_contact Sample.jun01
                                               Sample.ann_again
                                               Sample.alice Sample.book))
     = true.
Proof. repeat split; reflexivity. Qed.

(** ** The table invariants are kept *)

(** The operations hand back a well-formed session when they are given
    one: keys stay distinct and below the sequence, emails stay distinct,
    and nothing is left staged.  (For [update_contact] this is stated for
    a new email that is free among the other rows.) *)

Section Preservation.

Lemma well_formed_intro s :
  Db.pending s = [] ->
  Inv.distinct_ids (Db.table s) = true ->
  Inv.distinct_emails (Db.table s) = true ->
  Inv.below (Db.sequence s) (Db.table s) = true ->
  Inv.well_formed s = true.
Proof.
  intros Hp Hi He Hb. unfold Inv.well_formed, Inv.idle.
  rewrite Hp, Hi, He, Hb. reflexivity.
Qed.

Lemma existsb_filter {A} (q p : A -> bool) (l : list A) :
  existsb q l = false -> existsb q (List.filter p l) = false.
Proof.
  induction l as [|a l IH]; simpl; [trivial|].
  intros H. apply orb_false_elim in H as [Ha Hl].
  destruct (p a); simpl; [rewrite Ha|]; auto.
Qed.

Lemma distinct_ids_filter p rows :
  Inv.distinct_ids rows = true -> Inv.distinct_ids (List.filter p rows) = true.
Proof.
  induction rows as [|a rest IH]; simpl; [trivial|].
  destruct (Contact.id a) as [pk|] eqn:Ha; [|discriminate].
  intros H. apply andb_prop in H as [Hf Hd]. apply negb_true_iff in Hf.
  destruct (p a); simpl; [|auto].
  rewrite Ha, (existsb_filter _ p _ Hf), (IH Hd). reflexivity.
Qed.

Lemma distinct_emails_filter p rows :
  Inv.distinct_emails rows = true ->
  Inv.distinct_emails (List.filter p rows) = true.
Proof.
  induction rows as [|a rest IH]; simpl; [trivial|].
  intros H. apply andb_prop in H as [Hf Hd]. apply negb_true_iff in Hf.
  destruct (p a); simpl; [|auto].
  rewrite (existsb_filter _ p _ Hf), (IH Hd). reflexivity.
Qed.

Lemma below_filter p seq rows :
  Inv.below seq rows = true -> Inv.below seq (List.filter p rows) = true.
Proof.
  unfold Inv.below. rewrite !forallb_forall. intros H r Hr.
  apply filter_In in Hr. apply H, Hr.
Qed.

Lemma distinct_ids_snoc rows c seq :
  Inv.distinct_ids rows = true ->
  Inv.below seq rows = true ->
  Contact.id c = Some seq ->
  Inv.distinct_ids (rows ++ [c]) = true.
Proof.
  intros Hd Hb Hc. induction rows as [|a rest IH]; simpl.
  - rewrite Hc. reflexivity.
  - simpl in Hd, Hb. destruct (Contact.id a) as [pk|] eqn:Ha; [|discriminate].
    apply andb_prop in Hd as [Hf Hd]. apply andb_prop in Hb as [Hlt Hb].
    apply negb_true_iff in Hf. apply Z.ltb_lt in Hlt.
    rewrite existsb_app, Hf, (IH Hd Hb). simpl.
    unfold Contact.has_id. rewrite Hc. simpl.
    replace (seq =? pk) with false by (symmetry; apply Z.eqb_neq; lia).
    reflexivity.
Qed.

Lemma distinct_emails_snoc rows c :
  Inv.distinct_emails rows = true ->
  existsb (fun r => (Contact.email r =? Contact.email c)%string) rows = false ->
  Inv.distinct_emails (rows ++ [c]) = true.
Proof.
  intros Hd Hc. induction rows as [|a rest IH]; simpl; [reflexivity|].
  simpl in Hd, Hc.
  apply andb_prop in Hd as [Hf Hd]. apply negb_true_iff in Hf.
  apply orb_false_elim in Hc as [Hac Hc].
  rewrite existsb_app, Hf, (IH Hd Hc). simpl.
  rewrite String.eqb_sym, Hac. reflexivity.
Qed.

Lemma below_snoc rows c seq :
  Inv.below seq rows = true ->
  Contact.id c = Some seq ->
  Inv.below (seq + 1) (rows ++ [c]) = true.
Proof.
  unfold Inv.below. rewrite !forallb_forall. intros Hb Hc r Hr.
  apply in_app_or in Hr. destruct Hr as [Hr|[<-|[]]].
  - specialize (Hb r Hr). destruct (Contact.id r); [|discriminate].
    apply Z.ltb_lt in Hb. apply Z.ltb_lt. lia.
  - rewrite Hc. apply Z.ltb_lt. lia.
Qed.

Lemma existsb_none {A} (q : A -> bool) (l : list A) :
  (forall x, In x l -> q x = false) <-> existsb q l = false.
Proof.
  induction l as [|a l IH]; simpl.
  - split; [reflexivity|intros _ x []].
  - rewrite orb_false_iff, <- IH. split.
    + intros H. split; [apply H; left; reflexivity|].
      intros x Hx. apply H. right. exact Hx.
    + intros [Ha Hl] x [<-|Hx]; [exact Ha|apply Hl, Hx].
Qed.

Lemma ids_only seq rows1 : forall rows2,
  map Contact.id rows1 = map Contact.id rows2 ->
  Inv.distinct_ids rows1 = Inv.distinct_ids rows2
  /\ Inv.below seq rows1 = Inv.below seq rows2
  /\ forall pk, existsb (Contact.has_id pk) rows1
                = existsb (Contact.has_id pk) rows2.
Proof.
  induction rows1 as [|a l1 IH]; intros [|b l2] H; try discriminate.
  - repeat split.
  - simpl in H. injection H as Hab Hl.
    destruct (IH l2 Hl) as (Hd & Hb & Hx).
    split; [|split].
    + simpl. rewrite Hab, Hd. destruct (Contact.id b) as [pk|]; [|reflexivity].
      rewrite (Hx pk). reflexivity.
    + simpl. rewrite Hab, Hb. reflexivity.
    + intros pk. simpl. rewrite (Hx pk). unfold Contact.has_id.
      rewrite Hab. reflexivity.
Qed.

Lemma replace_keeps_ids cid row rows :
  Contact.id row = Some cid ->
  map Contact.id
      (map (fun r => if Contact.has_id cid r then row else r) rows)
  = map Contact.id rows.
Proof.
  intros Hrow. rewrite map_map. apply map_ext. intros r.
  destruct (Contact.has_id cid r) eqn:E; [|reflexivity].
  apply has_id_id in E. congruence.
Qed.

Lemma replace_keeps_emails cid row rows :
  Inv.distinct_ids rows = true ->
  Inv.distinct_emails rows = true ->
  Inv.email_free_for (Some cid) (Contact.email row) rows = true ->
  Inv.distinct_emails
    (map (fun r => if Contact.has_id cid r then row else r) rows) = true.
Proof.
  unfold Inv.email_free_for. rewrite negb_true_iff.
  induction rows as [|a rest IH]; intros Hd He Hfree; [reflexivity|].
  simpl in Hd, He, Hfree.
  destruct (Contact.id a) as [pk|] eqn:Ha; [|discriminate].
  apply andb_prop in Hd as [Hf Hd]. apply negb_true_iff in Hf.
  apply andb_prop in He as [Hea He]. apply negb_true_iff in Hea.
  apply orb_false_elim in Hfree as [Hfa Hfree].
  simpl. rewrite (IH Hd He Hfree), andb_true_r. apply negb_true_iff.
  apply existsb_none. intros x Hx. apply in_map_iff in Hx.
  destruct Hx as (r & <- & Hr).
  pose proof (proj2 (existsb_none _ _) Hf r Hr) as Hrpk.
  pose proof (proj2 (existsb_none _ _) Hea r Hr) as Hra.
  pose proof (proj2 (existsb_none _ _) Hfree r Hr) as Hrf.
  simpl in Hra, Hrf. fold (Contact.has_id cid r) in Hrf.
  unfold Contact.has_id at 2. rewrite Ha. simpl Contact.opt_eqb.
  destruct (pk =? cid) eqn:E.
  - apply Z.eqb_eq in E. subst pk. rewrite Hrpk in *. simpl in Hrf.
    exact Hrf.
  - destruct (Contact.has_id cid r); [|exact Hra].
    simpl in Hfa. rewrite E in Hfa. simpl in Hfa.
    rewrite String.eqb_sym. exact Hfa.
Qed.


Ltac split_invariant Hwf :=
  let Hidle := fresh "Hidle" in
  let Hids := fresh "Hids" in
  let Hemails := fresh "Hemails" in
  let Hbelow := fresh "Hbelow" in
  destruct (well_formed_parts _ Hwf) as (Hidle & Hids & Hemails & Hbelow).

Lemma reads_preserve_well_formed s :
  Inv.well_formed s = true ->
  Inv.well_formed
    (Db.drop_pending
       (Db.record_call Db.Close false (Db.record_call Db.Execute true s)))
  = true.
Proof.
  intros Hwf. split_invariant Hwf.
  apply well_formed_intro; simpl; first [reflexivity | assumption].
Qed.

Lemma refused_read_preserves_well_formed s :
  Inv.well_formed s = true ->
  Inv.well_formed (Db.record_call Db.Execute true s) = true.
Proof.
  intros Hwf. split_invariant Hwf.
  apply well_formed_intro; simpl; first [reflexivity | assumption].
Qed.

Lemma create_contact_preserves_well_formed today body owner s :
  Inv.well_formed s = true ->
  Inv.well_formed (snd (Repository.create_contact today body owner s)) = true.
Proof.
  intros Hwf. split_invariant Hwf.
  unfold Repository.create_contact.
  destruct (Calendar.geb (Schema.birthday body) today); [exact Hwf|].
  rewrite Contact_init_dump.
  unfold Db.try_finally, Db.try_except, Db.bind, Db.add, Db.commit,
    Db.refresh, Db.close.
  simpl. rewrite Hidle. simpl.
  destruct (existsb _ (Db.table s)) eqn:E; simpl.
  - apply well_formed_intro; simpl; first [reflexivity | assumption].
  - rewrite Contact_eqb_refl.
    rewrite find_last;
      [|intros r Hr; apply (below_fresh _ _ _ Hbelow Hr)
       |unfold Contact.has_id; simpl; apply Z.eqb_refl].
    simpl. apply well_formed_intro; simpl.
    + reflexivity.
    + eapply distinct_ids_snoc; eauto.
    + apply distinct_emails_snoc; assumption.
    + apply below_snoc; [assumption|reflexivity].
Qed.

Lemma delete_contact_preserves_well_formed cid owner s :
  Inv.well_formed s = true ->
  Inv.well_formed (snd (Repository.delete_contact cid owner s)) = true.
Proof.
  intros Hwf. split_invariant Hwf.
  destruct (find (Contact.has_id cid) (Db.table s)) as [r|] eqn:Hfind.
  - pose proof Hfind as Hfound.
    apply find_some in Hfound. destruct Hfound as [Hin Hid].
    destruct (Contact.owned_by owner r) eqn:Hown.
    + rewrite (delete_contact_found cid owner s r Hwf Hin Hid Hown).
      apply well_formed_intro; simpl.
      * reflexivity.
      * apply distinct_ids_filter, Hids.
      * apply distinct_emails_filter, Hemails.
      * apply below_filter, Hbelow.
    + unfold Repository.delete_contact, Db.bind.
      rewrite execute_by_id, (select_by_key _ _ _ Hids), Hfind, Hown.
      destruct (Db.binds_key s cid); simpl;
        apply well_formed_intro; simpl; first [reflexivity | assumption].
  - unfold Repository.delete_contact, Db.bind.
    rewrite execute_by_id, (select_by_key _ _ _ Hids), Hfind.
    destruct (Db.binds_key s cid); simpl;
      apply well_formed_intro; simpl; first [reflexivity | assumption].
Qed.

Lemma update_contact_preserves_well_formed cid data owner s :
  Inv.well_formed s = true ->
  Inv.email_free_for (Some cid) (Schema.email data) (Db.table s) = true ->
  Inv.well_formed (snd (Repository.update_contact cid data owner s)) = true.
Proof.
  intros Hwf Hfree.
  destruct (well_formed_parts s Hwf) as (Hidle & Hids & Hemails & Hbelow).
  destruct (find (Contact.has_id cid) (Db.table s)) as [r|] eqn:Hfind.
  - destruct (Contact.owned_by owner r) eqn:Hown.
    + apply find_some in Hfind. destruct Hfind as [Hin Hid].
      rewrite (update_contact_found _ _ _ _ _ Hwf Hin Hid Hown Hfree).
      destruct (Contact.eqb r (Spec.overwritten r data));
        apply well_formed_intro; simpl; try first [reflexivity | assumption].
      * destruct (ids_only (Db.sequence s) _ _
                    (replace_keeps_ids cid
                       (Contact.set_updated_at (Some (Db.now s))
                          (Spec.overwritten r data))
                       (Db.table s)
                       ltac:(apply has_id_id in Hid; exact Hid)))
          as (-> & _). exact Hids.
      * apply replace_keeps_emails; assumption.
      * destruct (ids_only (Db.sequence s) _ _
                    (replace_keeps_ids cid
                       (Contact.set_updated_at (Some (Db.now s))
                          (Spec.overwritten r data))
                       (Db.table s)
                       ltac:(apply has_id_id in Hid; exact Hid)))
          as (_ & -> & _). exact Hbelow.
    + unfold Repository.update_contact, Db.bind.
      rewrite execute_by_id, (select_by_key _ _ _ Hids), Hfind, Hown.
      destruct (Db.binds_key s cid); simpl;
        apply well_formed_intro; simpl; first [reflexivity | assumption].
  - unfold Repository.update_contact, Db.bind.
    rewrite execute_by_id, (select_by_key _ _ _ Hids), Hfind.
    destruct (Db.binds_key s cid); simpl;
      apply well_formed_intro; simpl; first [reflexivity | assumption].
Qed.

End Preservation.

(** ** Runs of the writing operations *)

Section Runs.

Lemma create_contact_stored today body owner s :
  Calendar.geb (Schema.birthday body) today = false ->
  Inv.well_formed s = true ->
  Inv.email_free (Schema.email body) (Db.table s) = true ->
  Repository.create_contact today body owner s
  = (inr (Expect.created s body owner),
     Db.MakeSession
       (Db.table s ++ [Expect.created s body owner])
       (Db.sequence s + 1) (Db.now s) []
       ((Contact_init (Schema.model_dump body) owner, Db.sequence s)
          :: Db.identity s)
       true
       (Db.calls s ++ [Db.Add; Db.Commit; Db.Refresh; Db.Close])).
Proof.
  intros Hpast Hwf Hfree.
  destruct (well_formed_parts s Hwf) as (Hidle & _ & _ & Hbelow).
  unfold Inv.email_free in Hfree. apply negb_true_iff in Hfree.
  unfold Repository.create_contact. rewrite Hpast, Contact_init_dump.
  unfold Db.try_finally, Db.try_except, Db.bind, Db.add, Db.commit,
    Db.refresh, Db.close.
  simpl. rewrite Hidle. simpl. rewrite Hfree. simpl.
  rewrite Contact_eqb_refl.
  rewrite find_last;
    [|intros r Hr; apply (below_fresh _ _ _ Hbelow Hr)
     |unfold Contact.has_id; simpl; apply Z.eqb_refl].
  unfold Expect.created, Contact.set_updated_at, Contact.set_created_at,
    Contact.set_id, Db.drop_pending, Db.record_call.
  simpl. rewrite <- !app_assoc. reflexivity.
Qed.

Lemma create_contact_refused today body owner s :
  Calendar.geb (Schema.birthday body) today = false ->
  Inv.idle s = true ->
  Inv.email_free (Schema.email body) (Db.table s) = false ->
  Repository.create_contact today body owner s
  = (inl (Db.HTTPException
            500 ("Database error: " ++ Db.unique_violation)%string),
     Db.MakeSession (Db.table s) (Db.sequence s) (Db.now s) []
                    (Db.identity s) true
                    (Db.calls s
                     ++ [Db.Add; Db.Commit; Db.Rollback; Db.Close])).
Proof.
  intros Hpast Hidle Htaken.
  apply idle_pending in Hidle.
  unfold Inv.email_free in Htaken. apply negb_false_iff in Htaken.
  unfold Repository.create_contact. rewrite Hpast, Contact_init_dump.
  unfold Db.try_finally, Db.try_except, Db.bind, Db.add, Db.commit,
    Db.refresh, Db.close.
  simpl. rewrite Hidle. simpl. rewrite Htaken.
  unfold Db.drop_pending, Db.record_call. simpl.
  rewrite <- !app_assoc. reflexivity.
Qed.

(** The three ways an update of a stored, owned contact can go. *)
Lemma update_contact_run cid data owner s old :
  Inv.well_formed s = true ->
  In old (Db.table s) ->
  Contact.has_id cid old = true ->
  Contact.owned_by owner old = true ->
  Repository.update_contact cid data owner s
  = if Contact.eqb old (Spec.overwritten old data)
       || Inv.email_free_for (Some cid) (Schema.email data) (Db.table s)
    then
      (inr (Expect.updated s old data),
       Db.MakeSession
         (map (fun r => if Contact.has_id cid r
                        then Expect.updated s old data else r)
              (Db.table s))
         (Db.sequence s) (Db.now s) [] (Db.identity s) true
         (Db.calls s ++ [Db.Execute; Db.Commit; Db.Refresh; Db.Close]))
    else
      (inl (Db.SQLAlchemyError Db.unique_violation),
       Db.MakeSession (Db.table s) (Db.sequence s) (Db.now s) []
                      (Db.identity s) false
                      (Db.calls s ++ [Db.Execute; Db.Commit])).
Proof.
  intros Hwf Hin Hid Hown.
  destruct (well_formed_parts s Hwf) as (Hidle & Hids & _ & _).
  unfold Repository.update_contact, Db.bind.
  rewrite (execute_somebody _ _ _ _ Hwf Hin Hid Hown).
  unfold Db.lift, Db.scalar_one_or_none. cbv beta iota.
  rewrite setattr_all_dump by exact Hidle.
  unfold Db.commit.
  cbn [Db.now Db.table Db.sequence Db.identity Db.pending Db.record_call].
  unfold Db.flush, Db.apply_change, Db.update_row.
  replace (Contact.id (Spec.overwritten old data)) with (Some cid)
    by (symmetry; apply has_id_id, Hid).
  rewrite (find_by_key _ _ _ Hids Hin Hid).
  unfold Expect.updated.
  destruct (Contact.eqb old (Spec.overwritten old data)) eqn:E.
  - cbn [orb]. unfold Db.refresh.
    cbn [Db.now Db.table Db.sequence Db.identity Db.pending
         Db.record_call].
    rewrite (key_of_persistent _ _ cid)
      by (apply has_id_id in Hid; exact Hid).
    rewrite (find_by_key _ _ _ Hids Hin Hid).
    rewrite (replace_by_itself _ _ _ Hids Hin Hid).
    unfold Db.close, Db.ret, Db.drop_pending, Db.record_call. simpl.
    rewrite <- !app_assoc. reflexivity.
  - cbn [orb]. unfold Inv.email_free_for.
    unfold Contact.has_id at 1. simpl Contact.email.
    destruct (existsb _ (Db.table s)) eqn:Ex; cbn [negb].
    + unfold Db.drop_pending, Db.record_call. simpl.
      rewrite <- !app_assoc. reflexivity.
    + unfold Db.refresh.
      cbn [Db.now Db.table Db.sequence Db.identity Db.pending
           Db.record_call].
      rewrite (key_of_persistent _ _ cid)
        by (apply has_id_id in Hid; exact Hid).
      rewrite (find_replaced cid _ _ old)
        by (try apply find_by_key; assumption).
      unfold Db.close, Db.ret, Db.drop_pending, Db.record_call. simpl.
      rewrite <- !app_assoc. reflexivity.
Qed.

End Runs.

(** ** Reading back what was written *)

Section Read_back.

Lemma distinct_emails_unique rows a b :
  Inv.distinct_emails rows = true ->
  In a rows -> In b rows -> Contact.email a = Contact.email b -> a = b.
Proof.
  induction rows as [|r rest IH]; intros Hd Ha Hb Heq; [destruct Ha|].
  simpl in Hd. apply andb_prop in Hd as [Hfresh Hd].
  apply negb_true_iff in Hfresh.
  pose proof (proj2 (existsb_none _ _) Hfresh) as Hnone.
  destruct Ha as [<-|Ha], Hb as [<-|Hb].
  - reflexivity.
  - specialize (Hnone b Hb). simpl in Hnone.
    rewrite <- Heq, String.eqb_refl in Hnone. discriminate.
  - specialize (Hnone a Ha). simpl in Hnone.
    rewrite Heq, String.eqb_refl in Hnone. discriminate.
  - apply IH; assumption.
Qed.

Lemma get_contact_by_key cid owner s :
  Db.binds_key s cid = true ->
  Inv.distinct_ids (Db.table s) = true ->
  fst (Repository.get_contact cid owner s)
  = inr match find (Contact.has_id cid) (Db.table s) with
        | Some r => if Contact.owned_by owner r then Some r else None
        | None => None
        end.
Proof.
  intros Hb Hids. rewrite (get_contact_run _ _ _ Hb). simpl fst.
  rewrite (select_by_key _ _ _ Hids).
  destruct (find _ (Db.table s)) as [r|]; [|reflexivity].
  destruct (Contact.owned_by owner r); reflexivity.
Qed.

Lemma updated_key s old data :
  Contact.id (Expect.updated s old data) = Contact.id old.
Proof.
  unfold Expect.updated.
  destruct (Contact.eqb old (Spec.overwritten old data)); reflexivity.
Qed.

Lemma updated_owner s old data :
  Contact.user_id (Expect.updated s old data) = Contact.user_id old.
Proof.
  unfold Expect.updated.
  destruct (Contact.eqb old (Spec.overwritten old data)); reflexivity.
Qed.

Lemma updated_carries s old data :
  Spec.carries (Expect.updated s old data) data.
Proof.
  unfold Expect.updated.
  destruct (Contact.eqb old (Spec.overwritten old data)) eqn:E.
  - apply eqb_overwritten, E.
  - repeat split.
Qed.

End Read_back.

(** X5.  Create, then read.  After a successful [create_contact] (strictly
    past birthday, well-formed session, email not yet stored) the returned
    contact carries the body's fields, and [get_contact] with its id on the
    resulting session returns that very contact to its owner and
    not-found to every other user. *)
Theorem created_contact_can_be_read_back :
  forall (today : Calendar.date) (body : Schema.ContactSchema)
         (owner : User.t) (s : Db.Session),
    Calendar.ltb (Schema.birthday body) today = true ->
    Inv.well_formed s = true ->
    Inv.email_free (Schema.email body) (Db.table s) = true ->
    exists c s' key,
      Repository.create_contact today body owner s = (inr c, s')
      /\ Contact.id c = Some key
      /\ Spec.carries c body
      /\ fst (Repository.get_contact key owner s') = inr (Some c)
      /\ forall other,
          User.id other <> User.id owner ->
          fst (Repository.get_contact key other s') = inr None.
Proof.
  intros today body owner s Hpast Hwf Hfree.
  destruct (well_formed_parts s Hwf) as (_ & Hids & _ & Hbelow).
  rewrite (create_contact_stored _ _ _ _ (ltb_geb _ _ Hpast) Hwf Hfree).
  eexists. eexists. exists (Db.sequence s).
  split; [reflexivity|]. split; [reflexivity|].
  split; [repeat split|].
  assert (Hfind : find (Contact.has_id (Db.sequence s))
                       (Db.table s ++ [Expect.created s body owner])
                  = Some (Expect.created s body owner)).
  { apply find_last.
    - intros r Hr. apply (below_fresh _ _ _ Hbelow Hr).
    - unfold Contact.has_id. simpl. apply Z.eqb_refl. }
  assert (Hids' : Inv.distinct_ids
                    (Db.table s ++ [Expect.created s body owner]) = true).
  { eapply distinct_ids_snoc; eauto. }
  assert (Hbind : forall s', Db.sequence s' = Db.sequence s + 1 ->
                             Db.binds_key s' (Db.sequence s) = true).
  { intros s' Hs'. unfold Db.binds_key. rewrite Hs'.
    replace (Db.sequence s <? Db.sequence s + 1) with true
      by (symmetry; apply Z.ltb_lt; lia).
    apply orb_true_r. }
  split.
  - rewrite get_contact_by_key;
      [|apply Hbind; reflexivity|exact Hids'].
    cbn [Db.table]. rewrite Hfind.
    unfold Contact.owned_by. simpl. rewrite Z.eqb_refl. reflexivity.
  - intros other Hother.
    rewrite get_contact_by_key;
      [|apply Hbind; reflexivity|exact Hids'].
    cbn [Db.table]. rewrite Hfind.
    unfold Contact.owned_by. simpl.
    destruct (Z.eqb_spec (User.id owner) (User.id other)); [congruence|].
    reflexivity.
Qed.

(** X5 at a concrete call: Alice adds Hal; she can read him back, Bob
    cannot. *)
Lemma created_contact_can_be_read_back_witness :
  Calendar.ltb (Schema.birthday Sample.hal) Sample.jun01 = true
  /\ Inv.well_formed Sample.book = true
  /\ Inv.email_free (Schema.email Sample.hal) (Db.table Sample.book) = true
  /\ exists c s' key,
      Repository.create_contact Sample.jun01 Sample.hal Sample.alice
                                Sample.book = (inr c, s')
      /\ fst (Repository.get_contact key Sample.alice s') = inr (Some c)
      /\ fst (Repository.get_contact key Sample.bob s') = inr None.
Proof.
  split; [reflexivity|]. split; [reflexivity|]. split; [reflexivity|].
  destruct (created_contact_can_be_read_back
              Sample.jun01 Sample.hal Sample.alice Sample.book
              eq_refl eq_refl eq_refl)
    as (c & s' & key & Hrun & _ & _ & Hmine & Hothers).
  exists c, s', key. split; [exact Hrun|]. split; [exact Hmine|].
  apply Hothers. discriminate.
Defined.

(** X6.  The email of a created contact is taken from then on: after a
    successful [create_contact], a second one with the same email on the
    resulting session, for any user and with any other fields, is refused
    and stores nothing: with HTTP 400 when its birthday is not strictly in
    the past, and otherwise with HTTP 500 and the unique-violation
    message. *)
Theorem second_create_with_same_email_fails :
  forall (today : Calendar.date) (body again : Schema.ContactSchema)
         (owner other : User.t) (s : Db.Session),
    Calendar.ltb (Schema.birthday body) today = true ->
    Inv.well_formed s = true ->
    Inv.email_free (Schema.email body) (Db.table s) = true ->
    Schema.email again = Schema.email body ->
    exists c s' s'',
      Repository.create_contact today body owner s = (inr c, s')
      /\ Repository.create_contact today again other s'
         = (inl (if Calendar.ltb (Schema.birthday again) today
                 then Db.HTTPException
                        500 ("Database error: " ++ Db.unique_violation)%string
                 else Db.HTTPException 400 "Birthday must be in the past"),
            s'')
      /\ Db.table s' = Db.table s ++ [c]
      /\ Db.table s'' = Db.table s'.
Proof.
  intros today body again owner other s Hpast Hwf Hfree Hsame.
  rewrite (create_contact_stored _ _ _ _ (ltb_geb _ _ Hpast) Hwf Hfree).
  eexists. eexists.
  destruct (Calendar.ltb (Schema.birthday again) today) eqn:Hagain.
  - eexists. split; [reflexivity|].
    rewrite create_contact_refused.
    + repeat split; reflexivity.
    + apply ltb_geb, Hagain.
    + reflexivity.
    + unfold Inv.email_free. cbn [Db.table].
      rewrite existsb_app, Hsame. simpl.
      rewrite String.eqb_refl, orb_true_r. reflexivity.
  - eexists. split; [reflexivity|].
    unfold Repository.create_contact.
    rewrite (geb_not_ltb _ _ Hagain).
    repeat split; reflexivity.
Qed.

(** X6 at concrete calls: Alice adds Hal, then Bob tries to add him, with
    the same birthday and with a birthday of today. *)
Lemma second_create_with_same_email_fails_witness :
  Calendar.ltb (Schema.birthday Sample.hal) Sample.jun01 = true
  /\ Inv.well_formed Sample.book = true
  /\ Inv.email_free (Schema.email Sample.hal) (Db.table Sample.book) = true
  /\ (exists c s' s'',
         Repository.create_contact Sample.jun01 Sample.hal Sample.alice
                                   Sample.book = (inr c, s')
         /\ Repository.create_contact Sample.jun01 Sample.hal Sample.bob s'
            = (inl (Db.HTTPException
                      500 ("Database error: " ++ Db.unique_violation)%string),
               s'')
         /\ Db.table s' = Db.table Sample.book ++ [c]
         /\ Db.table s'' = Db.table s')
  /\ (exists c s' s'',
         Repository.create_contact Sample.jun01 Sample.hal Sample.alice
                                   Sample.book = (inr c, s')
         /\ Repository.create_contact Sample.jun01 Sample.hal_today
                                      Sample.bob s'
            = (inl (Db.HTTPException 400 "Birthday must be in the past"),
               s'')
         /\ Db.table s' = Db.table Sample.book ++ [c]
         /\ Db.table s'' = Db.table s').
Proof.
  split; [reflexivity|]. split; [reflexivity|]. split; [reflexivity|].
  split.
  - apply (second_create_with_same_email_fails
             Sample.jun01 Sample.hal Sample.hal Sample.alice Sample.bob
             Sample.book); reflexivity.
  - apply (second_create_with_same_email_fails
             Sample.jun01 Sample.hal Sample.hal_today Sample.alice
             Sample.bob Sample.book); reflexivity.
Defined.

(** X8.  Update, then read.  After a successful [update_contact] of a
    stored, owned contact (well-formed session, new email free among the
    other rows), the returned contact carries the update's fields and
    [get_contact] with the same id on the resulting session returns that
    very contact. *)
Theorem updated_contact_can_be_read_back :
  forall (cid : Z) (data : Schema.ContactUpdate) (owner : User.t)
         (s : Db.Session) (old : Contact.t),
    Inv.well_formed s = true ->
    In old (Db.table s) ->
    Contact.id old = Some cid ->
    Contact.user_id old = Some (User.id owner) ->
    Inv.email_free_for (Some cid) (Schema.email data) (Db.table s) = true ->
    exists c s',
      Repository.update_contact cid data owner s = (inr c, s')
      /\ Spec.carries c data
      /\ fst (Repository.get_contact cid owner s') = inr (Some c).
Proof.
  intros cid data owner s old Hwf Hin Hid Hown Hfree.
  destruct (well_formed_parts s Hwf) as (_ & Hids & _ & Hbelow).
  apply (proj2 (has_id_id cid old)) in Hid.
  apply (proj2 (owned_by_user_id owner old)) in Hown.
  rewrite (update_contact_run _ _ _ _ _ Hwf Hin Hid Hown), Hfree,
    orb_true_r.
  eexists. eexists. split; [reflexivity|].
  split; [apply updated_carries|].
  assert (Hkey : Contact.id (Expect.updated s old data) = Some cid).
  { rewrite updated_key. apply has_id_id, Hid. }
  rewrite get_contact_by_key; cbn [Db.table].
  - rewrite (find_replaced cid _ _ old);
      [|apply find_by_key; assumption|apply has_id_id, Hkey].
    unfold Contact.owned_by. rewrite updated_owner.
    fold (Contact.owned_by owner old). rewrite Hown. reflexivity.
  - exact (stored_key_binds _ _ _ Hbelow Hin Hid).
  - destruct (ids_only (Db.sequence s) _ _
                (replace_keeps_ids cid (Expect.updated s old data)
                                   (Db.table s) Hkey)) as (-> & _).
    exact Hids.
Qed.

(** X8 at a concrete call: Alice overwrites Ann with Hal's data. *)
Lemma updated_contact_can_be_read_back_witness :
  Inv.well_formed Sample.book = true
  /\ exists c s',
      Repository.update_contact 1 Sample.hal Sample.alice Sample.book
      = (inr c, s')
      /\ Spec.carries c Sample.hal
      /\ fst (Repository.get_contact 1 Sample.alice s') = inr (Some c).
Proof.
  split; [reflexivity|].
  apply (updated_contact_can_be_read_back
           1 Sample.hal Sample.alice Sample.book Sample.jan30);
    first [reflexivity | left; reflexivity].
Defined.

(** X11.  Delete, then delete.  After [delete_contact] has removed a
    stored, owned contact, a second [delete_contact] with the same id and
    user on the resulting session raises HTTP 404 and changes nothing. *)
Theorem second_delete_is_not_found :
  forall (cid : Z) (owner : User.t) (s : Db.Session) (c : Contact.t),
    Inv.well_formed s = true ->
    In c (Db.table s) ->
    Contact.id c = Some cid ->
    Contact.user_id c = Some (User.id owner) ->
    exists s' s'',
      Repository.delete_contact cid owner s = (inr c, s')
      /\ Repository.delete_contact cid owner s'
         = (inl (Db.HTTPException 404 "Contact not found"), s'')
      /\ Db.table s'' = Db.table s'.
Proof.
  intros cid owner s c Hwf Hin Hid Hown.
  apply (proj2 (has_id_id cid c)) in Hid.
  apply (proj2 (owned_by_user_id owner c)) in Hown.
  destruct (well_formed_parts s Hwf) as (_ & _ & _ & Hbelow).
  rewrite (delete_contact_found _ _ _ _ Hwf Hin Hid Hown).
  eexists. eexists. split; [reflexivity|].
  rewrite delete_contact_not_found.
  - split; reflexivity.
  - exact (stored_key_binds _ _ _ Hbelow Hin Hid).
  - cbn [Db.table]. intros r Hr Hrid.
    apply filter_In in Hr. destruct Hr as [_ Hr].
    apply negb_true_iff in Hr. apply has_id_id in Hrid. congruence.
Qed.

(** X11 at a concrete call: Alice deletes Bob Ray's contact twice. *)
Lemma second_delete_is_not_found_witness :
  Inv.well_formed Sample.book = true
  /\ exists s' s'',
      Repository.delete_contact 2 Sample.alice Sample.book
      = (inr Sample.feb10, s')
      /\ Repository.delete_contact 2 Sample.alice s'
         = (inl (Db.HTTPException 404 "Contact not found"), s'')
      /\ Db.table s'' = Db.table s'.
Proof.
  split; [reflexivity|].
  apply (second_delete_is_not_found 2 Sample.alice Sample.book
                                    Sample.feb10);
    first [reflexivity | right; left; reflexivity].
Defined.

(** X10.  A refused update is not handled.  When the update's email is
    held by another stored contact, [update_contact] of a stored, owned
    contact lets the unique-violation [SQLAlchemyError] through (no HTTP
    error is made of it); the table is unchanged, and the function neither
    rolls back nor closes the session: the calls it made are the query and
    the commit, and the session is left open. *)
Theorem refused_update_is_not_handled :
  forall (cid : Z) (data : Schema.ContactUpdate) (owner : User.t)
         (s : Db.Session) (old holder : Contact.t),
    Inv.well_formed s = true ->
    In old (Db.table s) ->
    Contact.id old = Some cid ->
    Contact.user_id old = Some (User.id owner) ->
    In holder (Db.table s) ->
    Contact.id holder <> Some cid ->
    Contact.email holder = Schema.email data ->
    exists s',
      Repository.update_contact cid data owner s
      = (inl (Db.SQLAlchemyError Db.unique_violation), s')
      /\ Db.table s' = Db.table s
      /\ Db.closed s' = false
      /\ Db.calls s' = Db.calls s ++ [Db.Execute; Db.Commit].
Proof.
  intros cid data owner s old holder Hwf Hin Hid Hown Hhin Hhid Hhmail.
  destruct (well_formed_parts s Hwf) as (_ & Hids & Hemails & _).
  pose proof Hid as Hkey.
  apply (proj2 (has_id_id cid old)) in Hid.
  apply (proj2 (owned_by_user_id owner old)) in Hown.
  rewrite (update_contact_run _ _ _ _ _ Hwf Hin Hid Hown).
  assert (Hchanged : Contact.eqb old (Spec.overwritten old data) = false).
  { destruct (Contact.eqb old (Spec.overwritten old data)) eqn:E;
      [|reflexivity].
    apply eqb_overwritten in E. destruct E as (_ & _ & Hmail & _).
    assert (old = holder)
      by (apply (distinct_emails_unique _ _ _ Hemails Hin Hhin);
          congruence).
    subst holder. contradiction. }
  assert (Htaken : Inv.email_free_for (Some cid) (Schema.email data)
                                      (Db.table s) = false).
  { unfold Inv.email_free_for. apply negb_false_iff.
    apply existsb_exists. exists holder. split; [exact Hhin|].
    rewrite Hhmail, String.eqb_refl, andb_true_r.
    apply negb_true_iff.
    destruct (Contact.opt_eqb (Contact.id holder) (Some cid)) eqn:E;
      [|reflexivity].
    apply opt_eqb_eq in E. contradiction. }
  rewrite Hchanged, Htaken. cbn [orb].
  eexists. split; [reflexivity|]. repeat split.
Qed.

(** X10 at a concrete call: Alice gives Bob Ray's contact (id 2) the email
    of Ann's (id 1). *)
Lemma refused_update_is_not_handled_witness :
  Inv.well_formed Sample.book = true
  /\ exists s',
      Repository.update_contact 2 Sample.ann_again Sample.alice Sample.book
      = (inl (Db.SQLAlchemyError Db.unique_violation), s')
      /\ Db.table s' = Db.table Sample.book
      /\ Db.closed s' = false
      /\ Db.calls s' = Db.calls Sample.book ++ [Db.Execute; Db.Commit].
Proof.
  split; [reflexivity|].
  apply (refused_update_is_not_handled
           2 Sample.ann_again Sample.alice Sample.book
           Sample.feb10 Sample.jan30);
    first [reflexivity | discriminate | left; reflexivity
          | right; left; reflexivity].
Defined.

(** X12.  The table invariants are inductive.  From a well-formed session
    (keys distinct and below the sequence, emails distinct, nothing
    staged), [create_contact] and [delete_contact] with any arguments and
    any outcome, [update_contact] when the new email is free among the
    other rows, and the reads [get_contacts] and [get_contact] all leave a
    well-formed session. *)
Theorem well_formed_is_kept :
  forall (s : Db.Session),
    Inv.well_formed s = true ->
    (forall today body owner,
        Inv.well_formed (snd (Repository.create_contact today body owner s))
        = true)
    /\ (forall cid owner,
           Inv.well_formed (snd (Repository.delete_contact cid owner s))
           = true)
    /\ (forall cid data owner,
           Inv.email_free_for (Some cid) (Schema.email data) (Db.table s)
           = true ->
           Inv.well_formed (snd (Repository.update_contact cid data owner s))
           = true)
    /\ (forall limit offset name surname email owner,
           Inv.well_formed
             (snd (Repository.get_contacts limit offset name surname email
                                           owner s)) = true)
    /\ (forall cid owner,
           Inv.well_formed (snd (Repository.get_contact cid owner s))
           = true).
Proof.
  intros s Hwf. split; [|split; [|split; [|split]]].
  - intros. apply create_contact_preserves_well_formed, Hwf.
  - intros. apply delete_contact_preserves_well_formed, Hwf.
  - intros. apply update_contact_preserves_well_formed; assumption.
  - intros. rewrite get_contacts_cases.
    destruct (_ && _); cbn [snd];
      [apply reads_preserve_well_formed
      |apply refused_read_preserves_well_formed]; exact Hwf.
  - intros. rewrite get_contact_cases.
    destruct (Db.binds_key s cid); cbn [snd];
      [apply reads_preserve_well_formed
      |apply refused_read_preserves_well_formed]; exact Hwf.
Qed.

(** X12 at concrete calls on the sample table. *)
Lemma well_formed_is_kept_witness :
  Inv.well_formed Sample.book = true
  /\ Inv.well_formed
       (snd (Repository.create_contact Sample.jun01 Sample.hal Sample.alice
                                       Sample.book)) = true
  /\ Inv.well_formed
       (snd (Repository.delete_contact 2 Sample.alice Sample.book)) = true
  /\ Inv.well_formed
       (snd (Repository.update_contact 1 Sample.hal Sample.alice
                                       Sample.book)) = true.
Proof.
  split; [reflexivity|].
  destruct (well_formed_is_kept Sample.book eq_refl)
    as (Hcreate & Hdelete & Hupdate & _).
  split; [apply Hcreate|]. split; [apply Hdelete|].
  apply Hupdate. reflexivity.
Defined.

(** X4.  On a well-formed session [get_contact] returns the stored
    contact that has the id and belongs to the user whenever there is one,
    and for an id within the driver's integer range it never raises. *)
Theorem get_contact_finds_the_owned_contact :
  forall (cid : Z) (owner : User.t) (s : Db.Session),
    Inv.well_formed s = true ->
    (forall c,
        In c (Db.table s) ->
        Contact.id c = Some cid ->
        Contact.user_id c = Some (User.id owner) ->
        fst (Repository.get_contact cid owner s) = inr (Some c))
    /\ (Db.in_range cid = true ->
        forall e, fst (Repository.get_contact cid owner s) <> inl e).
Proof.
  intros cid owner s Hwf.
  destruct (well_formed_parts s Hwf) as (_ & Hids & _ & Hbelow).
  split.
  - intros c Hin Hid Hown.
    apply (proj2 (has_id_id cid c)) in Hid.
    apply (proj2 (owned_by_user_id owner c)) in Hown.
    rewrite (get_contact_by_key _ _ _
               (stored_key_binds _ _ _ Hbelow Hin Hid) Hids).
    rewrite (find_by_key _ _ _ Hids Hin Hid), Hown. reflexivity.
  - intros Hrange e.
    rewrite (get_contact_by_key _ _ _ (in_range_binds_key s _ Hrange) Hids).
    discriminate.
Qed.

(** X4 at concrete calls: Alice reads Ann's contact, id 1, and asks for an
    id nobody has. *)
Lemma get_contact_finds_the_owned_contact_witness :
  Inv.well_formed Sample.book = true
  /\ fst (Repository.get_contact 1 Sample.alice Sample.book)
     = inr (Some Sample.jan30)
  /\ fst (Repository.get_contact 99 Sample.alice Sample.book)
     <> inl (Db.OverflowError Db.integer_out_of_range).
Proof.
  split; [reflexivity|].
  destruct (get_contact_finds_the_owned_contact 1 Sample.alice Sample.book
              eq_refl) as [Hfound _].
  destruct (get_contact_finds_the_owned_contact 99 Sample.alice Sample.book
              eq_refl) as [_ Hquiet].
  split.
  - apply Hfound; [left; reflexivity|reflexivity|reflexivity].
  - apply Hquiet. reflexivity.
Defined.

(** X7.  [create_contact] never removes, alters or reorders a stored row:
    on a session with nothing staged, whatever the arguments and the
    outcome, the table afterwards is the table before, or the table before
    followed by one new row that carries the body's fields and belongs to
    the calling user. *)
Theorem create_contact_keeps_existing_rows :
  forall (today : Calendar.date) (body : Schema.ContactSchema)
         (owner : User.t) (s : Db.Session),
    Inv.idle s = true ->
    Db.table (snd (Repository.create_contact today body owner s))
    = Db.table s
    \/ exists c,
        Db.table (snd (Repository.create_contact today body owner s))
        = Db.table s ++ [c]
        /\ Spec.carries c body
        /\ Contact.user_id c = Some (User.id owner).
Proof.
  intros today body owner s Hidle. apply idle_pending in Hidle.
  unfold Repository.create_contact.
  destruct (Calendar.geb (Schema.birthday body) today); [left; reflexivity|].
  rewrite Contact_init_dump.
  unfold Db.try_finally, Db.try_except, Db.bind, Db.add, Db.commit,
    Db.refresh, Db.close.
  simpl. rewrite Hidle. simpl.
  destruct (existsb _ (Db.table s)); simpl; [left; reflexivity|].
  rewrite Contact_eqb_refl.
  destruct (find _ _); simpl; right; eexists;
    (split; [reflexivity|]); repeat split.
Qed.

(** X7 at a concrete call. *)
Lemma create_contact_keeps_existing_rows_witness :
  Inv.idle Sample.book = true
  /\ (Db.table (snd (Repository.create_contact
                       Sample.jun01 Sample.hal Sample.alice Sample.book))
      = Db.table Sample.book
      \/ exists c,
          Db.table (snd (Repository.create_contact
                           Sample.jun01 Sample.hal Sample.alice Sample.book))
          = Db.table Sample.book ++ [c]
          /\ Spec.carries c Sample.hal
          /\ Contact.user_id c = Some (User.id Sample.alice)).
Proof.
  split; [reflexivity|].
  apply (create_contact_keeps_existing_rows
           Sample.jun01 Sample.hal Sample.alice Sample.book).
  reflexivity.
Defined.

Section Columns.

Lemma replaced_column {A} (f : Contact.t -> A) cid row rows old :
  Inv.distinct_ids rows = true ->
  In old rows ->
  Contact.has_id cid old = true ->
  f row = f old ->
  map f (map (fun r => if Contact.has_id cid r then row else r) rows)
  = map f rows.
Proof.
  intros Hd Hin Hid Hf. rewrite map_map. apply map_ext_in. intros r Hr.
  destruct (Contact.has_id cid r) eqn:E; [|reflexivity].
  pose proof (find_by_key _ _ _ Hd Hin Hid) as H1.
  pose proof (find_by_key _ _ _ Hd Hr E) as H2.
  rewrite Hf. congruence.
Qed.

Lemma updated_created_at s old data :
  Contact.created_at (Expect.updated s old data) = Contact.created_at old.
Proof.
  unfold Expect.updated.
  destruct (Contact.eqb old (Spec.overwritten old data)); reflexivity.
Qed.

End Columns.

(** X9.  [update_contact] cannot move a contact: on a well-formed session,
    whatever the arguments and the outcome, the stored rows keep their
    number and order, and each keeps its id, its owner and its creation
    time; the key sequence does not advance. *)
Theorem update_keeps_keys_and_owners :
  forall (cid : Z) (data : Schema.ContactUpdate) (owner : User.t)
         (s : Db.Session),
    Inv.well_formed s = true ->
    let s' := snd (Repository.update_contact cid data owner s) in
    map Contact.id (Db.table s') = map Contact.id (Db.table s)
    /\ map Contact.user_id (Db.table s') = map Contact.user_id (Db.table s)
    /\ map Contact.created_at (Db.table s')
       = map Contact.created_at (Db.table s)
    /\ Db.sequence s' = Db.sequence s.
Proof.
  intros cid data owner s Hwf.
  destruct (well_formed_parts s Hwf) as (Hidle & Hids & _ & _).
  destruct (find (Contact.has_id cid) (Db.table s)) as [r|] eqn:Hfind.
  - destruct (Contact.owned_by owner r) eqn:Hown.
    + apply find_some in Hfind. destruct Hfind as [Hin Hid].
      rewrite (update_contact_run _ _ _ _ _ Hwf Hin Hid Hown).
      destruct (_ || _); cbn; [|repeat split].
      split; [|split; [|split]].
      * apply (replaced_column Contact.id _ _ _ r); try assumption.
        apply updated_key.
      * apply (replaced_column Contact.user_id _ _ _ r); try assumption.
        apply updated_owner.
      * apply (replaced_column Contact.created_at _ _ _ r);
          try assumption.
        apply updated_created_at.
      * reflexivity.
    + unfold Repository.update_contact, Db.bind.
      rewrite execute_by_id, (select_by_key _ _ _ Hids), Hfind, Hown.
      destruct (Db.binds_key s cid); cbn; repeat split.
  - unfold Repository.update_contact, Db.bind.
    rewrite execute_by_id, (select_by_key _ _ _ Hids), Hfind.
    destruct (Db.binds_key s cid); cbn; repeat split.
Qed.

(** X9 at a concrete call. *)
Lemma update_keeps_keys_and_owners_witness :
  Inv.well_formed Sample.book = true
  /\ map Contact.user_id
         (Db.table (snd (Repository.update_contact
                           1 Sample.hal Sample.alice Sample.book)))
     = map Contact.user_id (Db.table Sample.book).
Proof.
  split; [reflexivity|].
  apply (update_keeps_keys_and_owners 1 Sample.hal Sample.alice
                                      Sample.book eq_refl).
Defined.

(** ** Pages *)

Section Pages.

Context {A : Type}.

Lemma firstn_sum (a b : nat) : forall l : list A,
  firstn (a + b) l = firstn a l ++ firstn b (skipn a l).
Proof.
  induction a as [|a IH]; intros l; [reflexivity|].
  destruct l as [|x l]; simpl.
  - rewrite firstn_nil. reflexivity.
  - rewrite IH. reflexivity.
Qed.

Lemma skipn_sum (a b : nat) : forall l : list A,
  skipn (a + b) l = skipn b (skipn a l).
Proof.
  induction a as [|a IH]; intros l; [reflexivity|].
  destruct l as [|x l]; simpl; [rewrite skipn_nil; reflexivity|apply IH].
Qed.

Lemma pages_tile (a b o : nat) (l : list A) :
  firstn (a + b) (skipn o l)
  = firstn a (skipn o l) ++ firstn b (skipn (o + a) l).
Proof. rewrite firstn_sum, skipn_sum. reflexivity. Qed.

End Pages.

Section Listing.

Lemma get_all_contacts_cases limit offset s :
  Repository.get_all_contacts limit offset s
  = if Db.in_range (Z.of_nat offset) && Db.in_range (Z.of_nat limit)
    then
      (inr (firstn limit (skipn offset (Db.table s))),
       Db.drop_pending
         (Db.record_call Db.Close false
                         (Db.record_call Db.Execute true s)))
    else
      (inl (Db.OverflowError Db.integer_out_of_range),
       Db.record_call Db.Execute true s).
Proof.
  unfold Repository.get_all_contacts, Db.bind, Db.execute, Db.binds.
  cbn [Db.keys Db.offset_clause Db.limit_clause Db.limit Db.offset
       Db.select_Contact forallb Db.binds_count andb].
  destruct (Db.in_range (Z.of_nat offset) && Db.in_range (Z.of_nat limit));
    [|reflexivity].
  unfold Db.close, Db.ret, Db.run. simpl.
  rewrite (filter_ext
             (Db.satisfies
                (Db.limit (Db.offset Db.select_Contact offset) limit))
             (fun _ => true)) by reflexivity.
  assert (H : forall l : list Contact.t, List.filter (fun _ => true) l = l).
  { induction l as [|x l IH]; simpl; [|rewrite IH]; reflexivity. }
  rewrite H. reflexivity.
Qed.

Lemma get_all_contacts_run limit offset s :
  Db.in_range (Z.of_nat offset) = true ->
  Db.in_range (Z.of_nat limit) = true ->
  Repository.get_all_contacts limit offset s
  = (inr (firstn limit (skipn offset (Db.table s))),
     Db.drop_pending
       (Db.record_call Db.Close false (Db.record_call Db.Execute true s))).
Proof.
  intros Ho Hl. rewrite get_all_contacts_cases, Ho, Hl. reflexivity.
Qed.

(** A count below one the driver binds is bound too. *)
Lemma in_range_le (m n : nat) :
  (m <= n)%nat ->
  Db.in_range (Z.of_nat n) = true -> Db.in_range (Z.of_nat m) = true.
Proof.
  unfold Db.in_range, Db.INT_MIN, Db.INT_MAX.
  rewrite !andb_true_iff, !Z.leb_le. lia.
Qed.

Lemma list_statement_page limit limit' offset offset' name surname email
      owner c :
  Db.satisfies (list_statement limit offset name surname email owner) c
  = Db.satisfies (list_statement limit' offset' name surname email owner) c.
Proof.
  unfold list_statement, Repository.ilike_if.
  destruct email as [[|? ?]|], surname as [[|? ?]|], name as [[|? ?]|];
    reflexivity.
Qed.

End Listing.

(** X2.  Consecutive pages tile.  For [get_contacts] with fixed filters and
    owner, and for [get_all_contacts], when the second offset [offset + a]
    and the joint size [a + b] are within the driver's integer range, the
    page of [a] rows at [offset] followed by the page of [b] rows at
    [offset + a], asked on the session the first call left, is the page of
    [a + b] rows at [offset]: between two consecutive pages no row is
    skipped and none is repeated. *)
Theorem consecutive_pages_tile :
  forall (a b o : nat) (name surname email : option string)
         (owner : User.t) (s : Db.Session),
    Db.in_range (Z.of_nat (o + a)) = true ->
    Db.in_range (Z.of_nat (a + b)) = true ->
    (exists p1 p2 s1 s2,
        Repository.get_contacts a o name surname email owner s
        = (inr p1, s1)
        /\ Repository.get_contacts b (o + a) name surname email owner s1
           = (inr p2, s2)
        /\ fst (Repository.get_contacts (a + b) o name surname email owner s)
           = inr (p1 ++ p2))
    /\ (exists p1 p2 s1 s2,
           Repository.get_all_contacts a o s = (inr p1, s1)
           /\ Repository.get_all_contacts b (o + a) s1 = (inr p2, s2)
           /\ fst (Repository.get_all_contacts (a + b) o s)
              = inr (p1 ++ p2)).
Proof.
  intros a b o name surname email owner s Hoa Hab.
  assert (Ho : Db.in_range (Z.of_nat o) = true)
    by (apply (in_range_le o (o + a)); [lia|exact Hoa]).
  assert (Ha : Db.in_range (Z.of_nat a) = true)
    by (apply (in_range_le a (a + b)); [lia|exact Hab]).
  assert (Hb : Db.in_range (Z.of_nat b) = true)
    by (apply (in_range_le b (a + b)); [lia|exact Hab]).
  split.
  - rewrite !get_contacts_run by assumption.
    eexists. eexists. eexists. eexists.
    split; [reflexivity|].
    rewrite get_contacts_run by assumption. split; [reflexivity|].
    cbn [fst Db.table Db.drop_pending Db.record_call].
    rewrite !list_statement_run, pages_tile.
    rewrite (filter_ext _ _ (list_statement_page (a + b) a o o name surname
                                                 email owner)).
    rewrite (filter_ext _ _ (list_statement_page b a (o + a) o name surname
                                                 email owner)).
    reflexivity.
  - rewrite !get_all_contacts_run by assumption.
    eexists. eexists. eexists. eexists.
    split; [reflexivity|].
    rewrite get_all_contacts_run by assumption. split; [reflexivity|].
    cbn [fst Db.table Db.drop_pending Db.record_call].
    rewrite pages_tile. reflexivity.
Qed.

(** X2 at concrete calls: Alice's first two rows and her next three are
    her first five. *)
Lemma consecutive_pages_tile_witness :
  exists p1 p2 s1 s2,
    Repository.get_contacts 2 0 None None None Sample.alice Sample.book
    = (inr p1, s1)
    /\ Repository.get_contacts 3 2 None None None Sample.alice s1
       = (inr p2, s2)
    /\ fst (Repository.get_contacts 5 0 None None None Sample.alice
                                    Sample.book)
       = inr (p1 ++ p2).
Proof.
  apply (consecutive_pages_tile 2 3 0 None None None Sample.alice
                                Sample.book); reflexivity.
Defined.

(** X1.  For an offset and a limit within the driver's integer range,
    [get_all_contacts] does not fail and pages the whole table without
    regard to ownership: the answer is the stored rows from position
    [offset] on, cut at [limit], so the row stored at any position [i] with
    [offset <= i < offset + limit] is returned at position [i - offset],
    whoever owns it.  The table is left as it was and the session is
    closed. *)
Theorem get_all_contacts_ignores_owners :
  forall (limit offset : nat) (s : Db.Session),
    Db.in_range (Z.of_nat offset) = true ->
    Db.in_range (Z.of_nat limit) = true ->
    exists page s',
      Repository.get_all_contacts limit offset s = (inr page, s')
      /\ page = firstn limit (skipn offset (Db.table s))
      /\ Db.table s' = Db.table s
      /\ Db.closed s' = true
      /\ forall (i : nat) (c : Contact.t),
          nth_error (Db.table s) i = Some c ->
          (offset <= i < offset + limit)%nat ->
          nth_error page (i - offset) = Some c.
Proof.
  intros limit offset s Ho Hl. rewrite (get_all_contacts_run _ _ _ Ho Hl).
  eexists. eexists. split; [reflexivity|]. split; [reflexivity|].
  split; [reflexivity|]. split; [reflexivity|].
  intros i c Hi Hrange.
  rewrite nth_error_firstn, nth_error_skipn.
  replace (offset + (i - offset))%nat with i by lia.
  destruct (Nat.ltb_spec (i - offset) limit); [exact Hi|lia].
Qed.

(** X1 at a concrete call: the page of ten from position 5 of the sample
    table holds Flo's contact, which is Bob's, and Gus's, which is
    nobody's. *)
Lemma get_all_contacts_ignores_owners_witness :
  exists page s',
    Repository.get_all_contacts 10 5 Sample.book = (inr page, s')
    /\ nth_error page 0 = Some Sample.theirs
    /\ nth_error page 1 = Some Sample.nobodys.
Proof.
  destruct (get_all_contacts_ignores_owners 10 5 Sample.book
              eq_refl eq_refl)
    as (page & s' & Hrun & _ & _ & _ & Hnth).
  exists page, s'. split; [exact Hrun|]. split.
  - apply (Hnth 5%nat Sample.theirs); [reflexivity|lia].
  - apply (Hnth 6%nat Sample.nobodys); [reflexivity|lia].
Defined.

(** ** Case of the filters *)

Section Case.

Lemma ilike_if_lower (a b : option string) (col : Contact.t -> string)
      (st : Db.Select) (c : Contact.t) :
  option_map Text.lower a = option_map Text.lower b ->
  Db.satisfies (Repository.ilike_if a col st) c
  = Db.satisfies (Repository.ilike_if b col st) c.
Proof.
  destruct a as [a|], b as [b|]; simpl; try discriminate;
    [|reflexivity].
  intros H. injection H as H.
  destruct a as [|x a], b as [|y b]; try discriminate; [reflexivity|].
  rewrite !satisfies_filter. unfold Text.ilike.
  rewrite !lower_wrap, H. reflexivity.
Qed.

Lemma ilike_if_under (a : option string) (col : Contact.t -> string)
      (st st' : Db.Select) (c : Contact.t) :
  Db.satisfies st c = Db.satisfies st' c ->
  Db.satisfies (Repository.ilike_if a col st) c
  = Db.satisfies (Repository.ilike_if a col st') c.
Proof.
  intros H. destruct a as [[|x a]|]; simpl; try exact H.
  rewrite !satisfies_filter, H. reflexivity.
Qed.

End Case.

(** X3.  The case of the ASCII letters of the filters is ignored: two
    calls of [get_contacts] whose name, surname and email filters differ
    only in the case of the letters A to Z (or are absent together) have
    the same outcome and leave the same session, wildcards or not. *)
Theorem filter_case_is_ignored :
  forall (limit offset : nat) (name name' surname surname' email email' :
                                 option string)
         (owner : User.t) (s : Db.Session),
    option_map Text.lower name = option_map Text.lower name' ->
    option_map Text.lower surname = option_map Text.lower surname' ->
    option_map Text.lower email = option_map Text.lower email' ->
    Repository.get_contacts limit offset name surname email owner s
    = Repository.get_contacts limit offset name' surname' email' owner s.
Proof.
  intros limit offset name name' surname surname' email email' owner s
         Hn Hs He.
  rewrite !get_contacts_cases, !list_statement_run.
  destruct (_ && _); [|reflexivity].
  do 4 f_equal. apply filter_ext. intros c. unfold list_statement.
  rewrite (ilike_if_lower _ _ _ _ _ He). apply ilike_if_under.
  rewrite (ilike_if_lower _ _ _ _ _ Hs). apply ilike_if_under.
  apply (ilike_if_lower _ _ _ _ _ Hn).
Qed.

(** X3 at a concrete call: [ANN] and [ann] select the same contacts. *)
Lemma filter_case_is_ignored_witness :
  option_map Text.lower (Some "ANN") = option_map Text.lower (Some "ann")
  /\ Repository.get_contacts 10 0 (Some "ANN") None None Sample.alice
                             Sample.book
     = Repository.get_contacts 10 0 (Some "ann") None None Sample.alice
                               Sample.book.
Proof.
  split; [reflexivity|].
  apply (filter_case_is_ignored 10 0 (Some "ANN") (Some "ann") None None
                                None None Sample.alice Sample.book);
    reflexivity.
Defined.

(** ** Seven days ahead *)

Section Calendar_facts.

Import Calendar.

Lemma days_in_month_bounds (y m : Z) : 28 <= days_in_month y m <= 31.
Proof.
  unfold days_in_month.
  destruct (m =? 2); [destruct (is_leap y); lia|].
  destruct ((m =? 4) || (m =? 6) || (m =? 9) || (m =? 11)); lia.
Qed.

Lemma valid_fields (d : date) :
  valid d = true <->
  MINYEAR <= year d <= MAXYEAR /\ 1 <= month d <= 12
  /\ 1 <= day d <= days_in_month (year d) (month d).
Proof.
  unfold valid. rewrite !andb_true_iff, !Z.leb_le. tauto.
Qed.

Lemma january (y : Z) : days_in_month y 1 = 31.
Proof. reflexivity. Qed.

(** Up to four weeks ahead the sum is in this month or the next. *)
Lemma add_days_within_four_weeks (k : nat) : forall d : date,
  valid d = true -> (k <= 28)%nat ->
  add_days d k
  = (let n := day d + Z.of_nat k in
     let len := days_in_month (year d) (month d) in
     if n <=? len then Some (Date (year d) (month d) n)
     else if month d <? 12
          then Some (Date (year d) (month d + 1) (n - len))
          else if year d <? MAXYEAR
               then Some (Date (year d + 1) 1 (n - len))
               else None).
Proof.
  induction k as [|k IH]; intros d Hv Hk.
  - apply valid_fields in Hv. destruct d as [y m dd]. simpl in *.
    rewrite Z.add_0_r.
    destruct (Z.leb_spec dd (days_in_month y m)); [reflexivity|lia].
  - pose proof (proj1 (valid_fields d) Hv) as (Hy & Hm & Hd).
    destruct d as [y m dd]. 
    cbn [add_days]. unfold tomorrow. cbn [year month day] in *.
    pose proof (days_in_month_bounds y m) as Hlen.
    destruct (Z.ltb_spec dd (days_in_month y m)) as [Hlt|Hge].
    + rewrite IH; [|apply valid_fields; cbn [year month day]; lia|lia].
      cbn [year month day]. cbv zeta.
      replace (dd + 1 + Z.of_nat k) with (dd + Z.of_nat (S k)) by lia.
      reflexivity.
    + destruct (Z.leb_spec (dd + Z.of_nat (S k)) (days_in_month y m));
        [lia|].
      destruct (Z.ltb_spec m 12) as [Hm12|Hm12].
      * pose proof (days_in_month_bounds y (m + 1)) as Hnext.
        rewrite IH; [|apply valid_fields; cbn [year month day]; lia|lia].
        cbn [year month day]. cbv zeta.
        destruct (Z.leb_spec (1 + Z.of_nat k) (days_in_month y (m + 1)));
          [|lia].
        do 2 f_equal. lia.
      * unfold MAXYEAR in *.
        destruct (Z.ltb_spec y 9999) as [Hy9|Hy9]; [|reflexivity].
        rewrite IH;
          [|apply valid_fields; unfold MINYEAR, MAXYEAR in *;
            cbn [year month day]; rewrite january; lia|lia].
        cbn [year month day]. cbv zeta. rewrite january.
        destruct (Z.leb_spec (1 + Z.of_nat k) 31); [|lia].
        do 2 f_equal. lia.
Qed.

Lemma add_days_week (d : date) (k : nat) :
  valid d = true -> (k <= 7)%nat ->
  add_days d k
  = (let n := day d + Z.of_nat k in
     let len := days_in_month (year d) (month d) in
     if n <=? len then Some (Date (year d) (month d) n)
     else if month d <? 12
          then Some (Date (year d) (month d + 1) (n - len))
          else if year d <? MAXYEAR
               then Some (Date (year d + 1) 1 (n - len))
               else None).
Proof. intros Hv Hk. apply add_days_within_four_weeks; [exact Hv|lia]. Qed.

End Calendar_facts.

(** X13.  The month-and-day clause against the calendar.  For a valid
    [today] with [horizon = today + 7 days] and a contact with a valid
    birthday, the WHERE clause of [get_upcoming_birthdays] holds exactly
    when the birthday's month and day are those of one of the eight dates
    [today], ..., [today + 7], or when the window crosses into the next
    month and the birthday lies in [today]'s month on a day this year's
    month does not have (a 29 February birthday in a common year).  So no
    birthday of the coming week is missed, across December into January
    too, and the only surplus is that leap-day case. *)
Theorem window_rule_against_the_calendar :
  forall (today horizon : Calendar.date) (c : Contact.t),
    Calendar.valid today = true ->
    Calendar.valid (Contact.birthday c) = true ->
    Calendar.add_days today 7 = Some horizon ->
    (Repository.birthday_clause today horizon c = true <->
     (exists (k : nat) (d : Calendar.date),
         (k <= 7)%nat
         /\ Calendar.add_days today k = Some d
         /\ Calendar.month d = Calendar.month (Contact.birthday c)
         /\ Calendar.day d = Calendar.day (Contact.birthday c))
     \/ (Calendar.month today <> Calendar.month horizon
         /\ Calendar.month (Contact.birthday c) = Calendar.month today
         /\ Calendar.days_in_month (Calendar.year today)
                                   (Calendar.month today)
            < Calendar.day (Contact.birthday c))).
Proof.
  intros today horizon c Hv Hb H7.
  rewrite birthday_clause_in_window. unfold Spec.in_window.
  pose proof (proj1 (valid_fields _) Hv) as (Hy & Hm & Hd).
  pose proof (proj1 (valid_fields _) Hb) as (_ & _ & Hbd & _).
  rewrite (add_days_week _ 7 Hv (le_n 7)) in H7. cbv zeta in H7.
  destruct (Contact.birthday c) as [by_ bm bd].
  destruct today as [ty tm td]. cbn [Calendar.year Calendar.month Calendar.day] in *.
  pose proof (days_in_month_bounds ty tm) as Hlen.
  set (len := Calendar.days_in_month ty tm) in *.
  assert (Hk : forall k : nat, (k <= 7)%nat ->
             Calendar.add_days (Calendar.Date ty tm td) k
             = (if td + Z.of_nat k <=? len
                then Some (Calendar.Date ty tm (td + Z.of_nat k))
                else if tm <? 12
                     then Some (Calendar.Date ty (tm + 1)
                                              (td + Z.of_nat k - len))
                     else if ty <? Calendar.MAXYEAR
                          then Some (Calendar.Date (ty + 1) 1
                                                   (td + Z.of_nat k - len))
                          else None)).
  { intros k Hk. apply (add_days_week (Calendar.Date ty tm td) k Hv Hk). }
  split.
  - intros Hw.
    destruct (Z.leb_spec (td + Z.of_nat 7) len) as [Hin|Hout].
    + injection H7 as <-. cbn [Calendar.month Calendar.day] in Hw.
      left. exists (Z.to_nat (bd - td)), (Calendar.Date ty tm bd).
      assert (0 <= bd - td <= 7) by lia.
      split; [lia|]. split; [|split; cbn; lia].
      rewrite Hk by lia. rewrite Z2Nat.id by lia.
      destruct (Z.leb_spec (td + (bd - td)) len); [|lia].
      do 2 f_equal. lia.
    + destruct (Z.ltb_spec tm 12) as [Hm12|Hm12].
      * injection H7 as <-. cbn [Calendar.month Calendar.day] in Hw.
        destruct Hw as [[Hw _]|[_ [[Hbm Hge]|[Hbm Hle]]]]; [lia| |].
        -- destruct (Z.le_gt_cases bd len) as [Hfit|Hlong].
           ++ left. exists (Z.to_nat (bd - td)), (Calendar.Date ty tm bd).
              split; [lia|]. split; [|split; cbn; lia].
              rewrite Hk by lia. rewrite Z2Nat.id by lia.
              destruct (Z.leb_spec (td + (bd - td)) len); [|lia].
              do 2 f_equal. lia.
           ++ right. cbn [Calendar.month]. lia.
        -- left. exists (Z.to_nat (bd + len - td)),
                        (Calendar.Date ty (tm + 1) bd).
           split; [lia|]. split; [|split; cbn; lia].
           rewrite Hk by lia. rewrite Z2Nat.id by lia.
           destruct (Z.leb_spec (td + (bd + len - td)) len); [lia|].
           destruct (Z.ltb_spec tm 12); [|lia].
           do 2 f_equal. lia.
      * destruct (Z.ltb_spec ty Calendar.MAXYEAR) as [Hy9|Hy9];
          [|discriminate].
        injection H7 as <-. cbn [Calendar.month Calendar.day] in Hw.
        destruct Hw as [[Hw _]|[_ [[Hbm Hge]|[Hbm Hle]]]]; [lia| |].
        -- destruct (Z.le_gt_cases bd len) as [Hfit|Hlong].
           ++ left. exists (Z.to_nat (bd - td)), (Calendar.Date ty tm bd).
              split; [lia|]. split; [|split; cbn; lia].
              rewrite Hk by lia. rewrite Z2Nat.id by lia.
              destruct (Z.leb_spec (td + (bd - td)) len); [|lia].
              do 2 f_equal. lia.
           ++ right. cbn [Calendar.month]. lia.
        -- left. exists (Z.to_nat (bd + len - td)),
                        (Calendar.Date (ty + 1) 1 bd).
           split; [lia|]. split; [|split; cbn; lia].
           rewrite Hk by lia. rewrite Z2Nat.id by lia.
           destruct (Z.leb_spec (td + (bd + len - td)) len); [lia|].
           destruct (Z.ltb_spec tm 12); [lia|].
           destruct (Z.ltb_spec ty Calendar.MAXYEAR); [|lia].
           do 2 f_equal. lia.
  - intros [(k & d & Hk7 & Hadd & Hdm & Hdd)|(Hcross & Hbm & Hlong)].
    + rewrite (Hk k Hk7) in Hadd.
      destruct (Z.leb_spec (td + Z.of_nat 7) len) as [Hin|Hout].
      * injection H7 as <-. cbn [Calendar.month Calendar.day].
        destruct (Z.leb_spec (td + Z.of_nat k) len); [|lia].
        injection Hadd as <-. cbn [Calendar.month Calendar.day] in *. lia.
      * destruct (Z.ltb_spec tm 12) as [Hm12|Hm12].
        -- injection H7 as <-. cbn [Calendar.month Calendar.day].
           destruct (Z.leb_spec (td + Z.of_nat k) len);
             injection Hadd as <-;
             cbn [Calendar.month Calendar.day] in *; lia.
        -- destruct (Z.ltb_spec ty Calendar.MAXYEAR) as [Hy9|Hy9];
             [|discriminate].
           injection H7 as <-. cbn [Calendar.month Calendar.day].
           destruct (Z.leb_spec (td + Z.of_nat k) len);
             injection Hadd as <-;
             cbn [Calendar.month Calendar.day] in *; lia.
    + right. split; [exact Hcross|]. left. lia.
Qed.

(** X13 at concrete dates: on 2023-02-25 the clause selects a contact born
    on 2000-02-29, although 2023 has no 29 February. *)
Lemma window_rule_against_the_calendar_witness :
  Calendar.valid Scenario.feb25 = true
  /\ Calendar.valid (Contact.birthday Scenario.leapling) = true
  /\ Calendar.add_days Scenario.feb25 7 = Some Scenario.mar04
  /\ Repository.birthday_clause Scenario.feb25 Scenario.mar04
                                Scenario.leapling = true.
Proof.
  split; [reflexivity|]. split; [reflexivity|]. split; [reflexivity|].
  apply (window_rule_against_the_calendar
           Scenario.feb25 Scenario.mar04 Scenario.leapling
           eq_refl eq_refl eq_refl).
  right. split; [discriminate|]. split; reflexivity.
Defined.



(** ** The routes *)

Section Route_facts.

Lemma Query_bounds default ge le raw v :
  Routes.Query default ge le raw = Some v ->
  match raw with
  | None => v = default
  | Some given =>
      v = given /\ ge <= v
      /\ match le with Some hi => v <= hi | None => True end
  end.
Proof.
  unfold Routes.Query. destruct raw as [given|].
  - destruct (Z.leb_spec ge given) as [Hge|Hge]; simpl; [|discriminate].
    destruct le as [hi|].
    + destruct (Z.leb_spec given hi) as [Hle|Hle]; [|discriminate].
      intros Hv. injection Hv as <-. auto.
    + intros Hv. injection Hv as <-. auto.
  - intros Hv. injection Hv as <-. reflexivity.
Qed.

Lemma Query_refused default ge le raw :
  Routes.Query default ge le raw = None <->
  exists given,
    raw = Some given
    /\ (given < ge \/ match le with Some hi => hi < given | None => False end).
Proof.
  unfold Routes.Query. destruct raw as [given|].
  - destruct (Z.leb_spec ge given); simpl.
    + destruct le as [hi|].
      * destruct (Z.leb_spec given hi); split.
        -- discriminate.
        -- intros (g & Hg & Hbad). injection Hg as <-. lia.
        -- intros _. exists given. split; [reflexivity|lia].
        -- reflexivity.
      * split; [discriminate|].
        intros (g & Hg & Hbad). injection Hg as <-. lia.
    + split; [|reflexivity]. intros _. exists given. auto.
  - split; [discriminate|]. intros (g & Hg & _). discriminate.
Qed.

Lemma Query_value default ge le raw v :
  Routes.Query default ge le raw = Some v ->
  v = match raw with Some given => given | None => default end.
Proof.
  intros H. apply Query_bounds in H.
  destruct raw; [destruct H as (-> & _)|]; auto.
Qed.

Lemma Query_limit raw v :
  Routes.Query 10 10 (Some 100) raw = Some v -> 10 <= v <= 100.
Proof.
  intros H. apply Query_bounds in H.
  destruct raw; [destruct H as (-> & ? & ?)|subst v]; lia.
Qed.

Lemma Query_offset raw v :
  Routes.Query 0 0 None raw = Some v -> 0 <= v.
Proof.
  intros H. apply Query_bounds in H.
  destruct raw; [destruct H as (-> & ? & _)|subst v]; lia.
Qed.

(** A page size the route lets through is one the driver binds. *)
Lemma limit_binds (l : Z) :
  10 <= l <= 100 -> Db.in_range (Z.of_nat (Z.to_nat l)) = true.
Proof.
  intros Hl. rewrite Z2Nat.id by lia.
  unfold Db.in_range, Db.INT_MIN, Db.INT_MAX.
  apply andb_true_iff. rewrite !Z.leb_le. lia.
Qed.

End Route_facts.

(** X15.  [GET /contacts/].  The request is refused before the handler
    runs exactly when [limit] is given outside 10..100 or [offset] is given
    below 0.  Otherwise, for an offset within the driver's integer range,
    the repository returns a page, with the table untouched and the
    session closed, and the handler answers by that page alone: it raises
    HTTP 404 "Contacts not found" when the page is empty, and when it is
    not it returns the page itself, which holds at least one and at most
    100 contacts (at most 10 when [limit] is absent), all of them stored
    rows of the user. *)
Theorem list_route_answers :
  forall (limit offset : option Z) (name surname email : option string)
         (user : User.t),
    (Routes.get_contacts limit offset name surname email user = None <->
     (exists l, limit = Some l /\ (l < 10 \/ 100 < l))
     \/ (exists o, offset = Some o /\ o < 0))
    /\ forall handler s,
        Routes.get_contacts limit offset name surname email user
        = Some handler ->
        let size := match limit with Some l => l | None => 10 end in
        let skipped := match offset with Some o => o | None => 0 end in
        Db.in_range skipped = true ->
        exists page s',
          Repository.get_contacts (Z.to_nat size) (Z.to_nat skipped)
                                  name surname email user s
          = (inr page, s')
          /\ Db.table s' = Db.table s
          /\ Db.closed s' = true
          /\ (page = [] ->
              handler s
              = (inl (Db.HTTPException 404 "Contacts not found"), s'))
          /\ (page <> [] ->
              handler s = (inr page, s')
              /\ (1 <= List.length page <= 100)%nat
              /\ (limit = None -> (List.length page <= 10)%nat)
              /\ forall c, In c page ->
                           In c (Db.table s)
                           /\ Contact.user_id c = Some (User.id user)).
Proof.
  intros limit offset name surname email user. split.
  - unfold Routes.get_contacts.
    destruct (Routes.Query 10 10 (Some 100) limit) as [l|] eqn:El.
    + destruct (Routes.Query 0 0 None offset) as [o|] eqn:Eo.
      * split; [discriminate|].
        intros [(l' & Hl & Hbad)|(o' & Ho & Hbad)]; subst.
        -- apply Query_bounds in El. lia.
        -- apply Query_bounds in Eo. lia.
      * split; [|reflexivity]. intros _. right.
        apply Query_refused in Eo. destruct Eo as (o' & Ho & [Hbad|[]]).
        eauto.
    + split; [|reflexivity]. intros _. left.
      apply Query_refused in El. destruct El as (l' & Hl & Hbad). eauto.
  - intros handler s. unfold Routes.get_contacts.
    destruct (Routes.Query 10 10 (Some 100) limit) as [l|] eqn:El;
      [|discriminate].
    destruct (Routes.Query 0 0 None offset) as [o|] eqn:Eo; [|discriminate].
    intros H. injection H as <-. cbv zeta.
    pose proof (Query_limit _ _ El) as Hl.
    pose proof (Query_offset _ _ Eo) as Ho.
    rewrite <- (Query_value _ _ _ _ _ El), <- (Query_value _ _ _ _ _ Eo).
    intros Hrange.
    assert (Hbo : Db.in_range (Z.of_nat (Z.to_nat o)) = true)
      by (rewrite Z2Nat.id by exact Ho; exact Hrange).
    unfold Db.bind.
    rewrite (get_contacts_run _ _ _ _ _ _ _ Hbo (limit_binds l Hl)),
      list_statement_run.
    eexists. eexists. split; [reflexivity|].
    split; [reflexivity|]. split; [reflexivity|].
    remember (firstn (Z.to_nat l) _) as page eqn:Hpage.
    destruct page as [|c page].
    + split; [reflexivity|]. intros Hne. contradiction Hne. reflexivity.
    + split; [discriminate|]. intros _. split; [reflexivity|].
      assert (Hlen : (List.length (c :: page) <= Z.to_nat l)%nat)
        by (rewrite Hpage; apply firstn_le_length).
      split; [|split].
      * simpl in *. lia.
      * intros ->. apply Query_bounds in El. subst l. exact Hlen.
      * intros r Hr. rewrite Hpage in Hr.
        apply page_front, page_back, filter_In in Hr.
        destruct Hr as [Hin Hsat]. split; [exact Hin|].
        apply owned_by_user_id. eapply list_statement_owned, Hsat.
Qed.

(** X15 at concrete requests: no parameters at all for Alice, who gets her
    five contacts; Bob filtering on a name he has not stored, who gets
    HTTP 404; and [limit=5], which is refused. *)
Lemma list_route_answers_witness :
  (exists handler s',
      Routes.get_contacts None None None None None Sample.alice
      = Some handler
      /\ handler Sample.book
         = (inr [Sample.jan30; Sample.feb10; Sample.jan20; Sample.jun05;
                 Sample.jun09], s'))
  /\ (exists handler s',
         Routes.get_contacts None None (Some "ann") None None Sample.bob
         = Some handler
         /\ handler Sample.book
            = (inl (Db.HTTPException 404 "Contacts not found"), s'))
  /\ Routes.get_contacts (Some 5) None None None None Sample.alice = None.
Proof.
  split; [|split].
  - destruct (proj2 (list_route_answers None None None None None
                                        Sample.alice)
                    _ Sample.book eq_refl eq_refl)
      as (page & s' & Hrun & _ & _ & _ & Hsome).
    injection Hrun as <- <-.
    eexists. eexists. split; [reflexivity|].
    apply Hsome. discriminate.
  - destruct (proj2 (list_route_answers None None (Some "ann") None None
                                        Sample.bob)
                    _ Sample.book eq_refl eq_refl)
      as (page & s' & Hrun & _ & _ & Hnone & _).
    injection Hrun as <- <-.
    eexists. eexists. split; [reflexivity|].
    apply Hnone. reflexivity.
  - apply (proj1 (list_route_answers (Some 5) None None None None
                                     Sample.alice)).
    left. exists 5. split; [reflexivity|lia].
Defined.

(** X16.  [GET /contacts/{id}].  On a well-formed session the handler
    returns the stored contact with that id when it belongs to the user.
    When the id is within the driver's integer range and no such row
    belongs to the user it raises HTTP 404 "Contact not found", and the
    answer and the session left behind are the same whether the id is
    unused or is another user's contact. *)
Theorem get_route_hides_foreign_contacts :
  forall (cid : Z) (user : User.t) (s : Db.Session),
    Inv.well_formed s = true ->
    (forall c,
        In c (Db.table s) ->
        Contact.id c = Some cid ->
        Contact.user_id c = Some (User.id user) ->
        fst (Routes.get_contact cid user s) = inr c)
    /\ (Db.in_range cid = true ->
        (forall c, In c (Db.table s) -> Contact.id c = Some cid ->
                   Contact.user_id c <> Some (User.id user)) ->
        Routes.get_contact cid user s
        = (inl (Db.HTTPException 404 "Contact not found"),
           Db.drop_pending
             (Db.record_call Db.Close false
                             (Db.record_call Db.Execute true s)))).
Proof.
  intros cid user s Hwf.
  destruct (well_formed_parts s Hwf) as (_ & Hids & _ & Hbelow).
  unfold Routes.get_contact, Db.bind.
  split.
  - intros c Hin Hid Hown.
    apply (proj2 (has_id_id cid c)) in Hid.
    apply (proj2 (owned_by_user_id user c)) in Hown.
    rewrite (get_contact_run _ _ _ (stored_key_binds _ _ _ Hbelow Hin Hid)).
    rewrite (select_by_key _ _ _ Hids), (find_by_key _ _ _ Hids Hin Hid),
      Hown.
    reflexivity.
  - intros Hrange Hnone.
    rewrite (get_contact_run _ _ _ (in_range_binds_key s _ Hrange)).
    rewrite filter_none; [reflexivity|].
    intros c Hc.
    destruct (Contact.has_id cid c && Contact.owned_by user c) eqn:E;
      [|reflexivity].
    apply andb_prop in E as [Hid Hown].
    exfalso. apply (Hnone c Hc).
    + apply has_id_id, Hid.
    + apply owned_by_user_id, Hown.
Qed.

(** X16 at concrete requests: Alice asks for Ann (hers), for Flo (Bob's)
    and for an id nobody has; the last two answers are equal. *)
Lemma get_route_hides_foreign_contacts_witness :
  Inv.well_formed Sample.book = true
  /\ fst (Routes.get_contact 1 Sample.alice Sample.book) = inr Sample.jan30
  /\ Routes.get_contact 6 Sample.alice Sample.book
     = Routes.get_contact 99 Sample.alice Sample.book.
Proof.
  split; [reflexivity|]. split.
  - destruct (get_route_hides_foreign_contacts 1 Sample.alice Sample.book
                eq_refl) as [Hfound _].
    apply Hfound; [left; reflexivity|reflexivity|reflexivity].
  - destruct (get_route_hides_foreign_contacts 6 Sample.alice Sample.book
                eq_refl) as [_ Hforeign].
    destruct (get_route_hides_foreign_contacts 99 Sample.alice Sample.book
                eq_refl) as [_ Hmissing].
    rewrite Hforeign, Hmissing; [reflexivity| | | |]; try reflexivity.
    + intros c Hin Hid. simpl in Hin.
      repeat (destruct Hin as [<-|Hin]; [discriminate|]).
      destruct Hin.
    + intros c Hin Hid. simpl in Hin.
      repeat (destruct Hin as [<-|Hin]; [discriminate|]).
      destruct Hin.
Defined.

(** X17.  [GET /contacts/birthday/].  With [horizon = today + 7 days], the
    handler raises HTTP 404 "Contacts not found" exactly when no stored
    contact satisfies the birthday clause; when some stored contact does,
    it returns the list of the stored contacts that satisfy it, in table
    order, and that list is not empty. *)
Theorem birthday_route_answers :
  forall (today horizon : Calendar.date) (user : User.t) (s : Db.Session),
    Calendar.add_days today 7 = Some horizon ->
    (fst (Routes.get_upcoming_birthdays today user s)
     = inl (Db.HTTPException 404 "Contacts not found") <->
     forall c, In c (Db.table s) ->
               Repository.birthday_clause today horizon c = false)
    /\ ((exists c, In c (Db.table s)
                   /\ Repository.birthday_clause today horizon c = true) ->
        fst (Routes.get_upcoming_birthdays today user s)
        = inr (List.filter (Repository.birthday_clause today horizon)
                           (Db.table s))
        /\ List.filter (Repository.birthday_clause today horizon)
                       (Db.table s) <> []).
Proof.
  intros today horizon user s H7.
  unfold Routes.get_upcoming_birthdays, Db.bind.
  rewrite (get_upcoming_birthdays_run _ _ _ _ H7).
  destruct (List.filter _ (Db.table s)) as [|c page] eqn:Hpage; simpl.
  - assert (Hnone : forall c, In c (Db.table s) ->
                      Repository.birthday_clause today horizon c = false).
    { intros c Hc.
      destruct (Repository.birthday_clause today horizon c) eqn:E;
        [|reflexivity].
      assert (Hin : In c (List.filter
                            (Repository.birthday_clause today horizon)
                            (Db.table s)))
        by (apply filter_In; auto).
      rewrite Hpage in Hin. destruct Hin. }
    split.
    + split; [intros _; exact Hnone|reflexivity].
    + intros (c & Hc & Hyes). rewrite (Hnone c Hc) in Hyes. discriminate.
  - split.
    + split; [discriminate|]. intros Hnone.
      assert (Hin : In c (List.filter
                            (Repository.birthday_clause today horizon)
                            (Db.table s)))
        by (rewrite Hpage; left; reflexivity).
      apply filter_In in Hin. destruct Hin as [Hin Hc].
      rewrite (Hnone c Hin) in Hc. discriminate.
    + intros _. split; [reflexivity|discriminate].
Qed.

(** X17 at a concrete request: 2024-01-28 on the sample table, where Ann's
    birthday, 30 January, is in the window. *)
Lemma birthday_route_answers_witness :
  Calendar.add_days Sample.jan28 7 = Some Sample.feb04
  /\ fst (Routes.get_upcoming_birthdays Sample.jan28 Sample.alice
                                        Sample.book)
     = inr (List.filter
              (Repository.birthday_clause Sample.jan28 Sample.feb04)
              (Db.table Sample.book))
  /\ In Sample.jan30
        (List.filter (Repository.birthday_clause Sample.jan28 Sample.feb04)
                     (Db.table Sample.book)).
Proof.
  split; [reflexivity|].
  split.
  - apply (proj2 (birthday_route_answers Sample.jan28 Sample.feb04
                                         Sample.alice Sample.book eq_refl)).
    exists Sample.jan30. split; [left; reflexivity|reflexivity].
  - left. reflexivity.
Defined.

(** ** The last week of the calendar *)

(** X14.  [get_upcoming_birthdays] adds seven days to [today] before it
    queries.  For every valid [today] before 9999-12-25 the sum exists and
    the call returns a list; from 9999-12-25 on the sum passes [date.max],
    the call raises [OverflowError] and the session is not touched. *)
Theorem upcoming_birthdays_overflow_boundary :
  forall (today : Calendar.date) (user : User.t) (s : Db.Session),
    Calendar.valid today = true ->
    (Calendar.ltb today (Calendar.Date 9999 12 25) = true ->
     exists result s',
       Repository.get_upcoming_birthdays today user s = (inr result, s'))
    /\ (Calendar.geb today (Calendar.Date 9999 12 25) = true ->
        Repository.get_upcoming_birthdays today user s
        = (inl (Db.OverflowError Repository.date_overflow), s)).
Proof.
  intros today user s Hv.
  pose proof (proj1 (valid_fields _) Hv) as (Hy & Hm & Hd).
  pose proof (add_days_week today 7 Hv (le_n 7)) as H7. cbv zeta in H7.
  unfold Repository.get_upcoming_birthdays, Calendar.geb, Calendar.ltb.
  destruct today as [y m d].
  cbn [Calendar.year Calendar.month Calendar.day] in *.
  unfold Calendar.MINYEAR, Calendar.MAXYEAR in *.
  split.
  - rewrite !orb_true_iff, !andb_true_iff, !orb_true_iff, !andb_true_iff,
      !Z.ltb_lt, !Z.eqb_eq.
    intros Hbefore. rewrite H7.
    destruct (Z.leb_spec (d + Z.of_nat 7) (Calendar.days_in_month y m));
      [eexists; eexists; reflexivity|].
    destruct (Z.ltb_spec m 12); [eexists; eexists; reflexivity|].
    destruct (Z.ltb_spec y 9999); [eexists; eexists; reflexivity|].
    exfalso.
    assert (m = 12) by lia. assert (y = 9999) by lia. subst m y.
    change (Calendar.days_in_month 9999 12) with 31 in *. lia.
  - rewrite negb_true_iff, !orb_false_iff, !andb_false_iff,
      !orb_false_iff, !andb_false_iff, !Z.ltb_ge, !Z.eqb_neq.
    intros Hafter.
    assert (y = 9999) by lia. subst y.
    assert (m = 12) by lia. subst m.
    change (Calendar.days_in_month 9999 12) with 31 in *.
    rewrite H7.
    destruct (Z.leb_spec (d + Z.of_nat 7) 31); [lia|]. reflexivity.
Qed.

(** X14 at concrete dates: 2024-01-28 and 9999-12-28. *)
Lemma upcoming_birthdays_overflow_boundary_witness :
  Calendar.valid Sample.jan28 = true
  /\ (exists result s',
         Repository.get_upcoming_birthdays Sample.jan28 Sample.alice
                                           Sample.book = (inr result, s'))
  /\ Calendar.valid Scenario.dec28 = true
  /\ Repository.get_upcoming_birthdays Scenario.dec28 Sample.alice
                                       Sample.book
     = (inl (Db.OverflowError Repository.date_overflow), Sample.book).
Proof.
  split; [reflexivity|]. split.
  - apply (upcoming_birthdays_overflow_boundary
             Sample.jan28 Sample.alice Sample.book eq_refl). reflexivity.
  - split; [reflexivity|].
    apply (upcoming_birthdays_overflow_boundary
             Scenario.dec28 Sample.alice Sample.book eq_refl). reflexivity.
Defined.

(** X18.  [GET /contacts/all].  When the request passes the parameter
    bounds and the offset (0 when absent) is within the driver's integer
    range, the handler raises HTTP 404 "Contacts not found" exactly when
    the offset is at or past the number of stored contacts; otherwise it
    returns the stored rows from the offset on, cut at the limit (10 when
    absent): between 1 and 100 stored rows, the leading row being the one
    stored at the offset, whoever owns it. *)
Theorem all_route_answers :
  forall (limit offset : option Z) (handler : Db.M (list Contact.t))
         (s : Db.Session),
    Routes.get_all_contacts limit offset = Some handler ->
    let size := match limit with Some l => l | None => 10 end in
    let skipped := match offset with Some o => o | None => 0 end in
    Db.in_range skipped = true ->
    (fst (handler s) = inl (Db.HTTPException 404 "Contacts not found") <->
     Z.of_nat (List.length (Db.table s)) <= skipped)
    /\ (skipped < Z.of_nat (List.length (Db.table s)) ->
        exists cs,
          fst (handler s) = inr cs
          /\ cs = firstn (Z.to_nat size)
                         (skipn (Z.to_nat skipped) (Db.table s))
          /\ (1 <= List.length cs <= 100)%nat
          /\ hd_error cs = nth_error (Db.table s) (Z.to_nat skipped)
          /\ forall c, In c cs -> In c (Db.table s)).
Proof.
  intros limit offset handler s. unfold Routes.get_all_contacts.
  destruct (Routes.Query 10 10 (Some 100) limit) as [l|] eqn:El;
    [|discriminate].
  destruct (Routes.Query 0 0 None offset) as [o|] eqn:Eo; [|discriminate].
  intros H. injection H as <-. cbv zeta.
  pose proof (Query_limit _ _ El) as Hl.
  pose proof (Query_offset _ _ Eo) as Ho.
  rewrite <- (Query_value _ _ _ _ _ El), <- (Query_value _ _ _ _ _ Eo).
  intros Hrange.
  assert (Hbo : Db.in_range (Z.of_nat (Z.to_nat o)) = true)
    by (rewrite Z2Nat.id by exact Ho; exact Hrange).
  unfold Db.bind.
  rewrite (get_all_contacts_run _ _ _ Hbo (limit_binds l Hl)).
  pose proof (length_skipn (Z.to_nat o) (Db.table s)) as Hlen.
  pose proof (hd_error_skipn (Z.to_nat o) (Db.table s)) as Hhd.
  destruct (skipn (Z.to_nat o) (Db.table s)) as [|c rest] eqn:Hskip.
  - rewrite firstn_nil. simpl in Hlen. split.
    + split; [intros _; lia|reflexivity].
    + intros Hin. lia.
  - destruct (Z.to_nat l) as [|n] eqn:Hn; [lia|].
    cbn [firstn fst Db.ret]. split.
    + split; [discriminate|]. simpl in Hlen. lia.
    + intros _. eexists. split; [reflexivity|]. split; [reflexivity|].
      split; [|split].
      * pose proof (firstn_le_length n rest). simpl. lia.
      * exact Hhd.
      * intros r Hr.
        apply (page_back (Z.to_nat o)). rewrite Hskip.
        destruct Hr as [<-|Hr]; [left; reflexivity|].
        right. apply (page_front n), Hr.
Qed.

(** X18 at concrete requests on the sample table of seven rows: offset 5
    with the default limit returns the last two rows, and offset 7 is
    answered with HTTP 404. *)
Lemma all_route_answers_witness :
  (exists handler,
      Routes.get_all_contacts None (Some 5) = Some handler
      /\ fst (handler Sample.book)
         = inr [Sample.theirs; Sample.nobodys])
  /\ (exists handler,
         Routes.get_all_contacts None (Some 7) = Some handler
         /\ fst (handler Sample.book)
            = inl (Db.HTTPException 404 "Contacts not found")).
Proof.
  split.
  - eexists. split; [reflexivity|].
    destruct (proj2 (all_route_answers None (Some 5) _ Sample.book
                                       eq_refl eq_refl))
      as (cs & Hrun & Hcs & _).
    + simpl. lia.
    + rewrite Hrun, Hcs. reflexivity.
  - eexists. split; [reflexivity|].
    apply (proj1 (all_route_answers None (Some 7) _ Sample.book
                                    eq_refl eq_refl)).
    simpl. lia.
Defined.
